(** * smartReminder: the reminder trigger engine

    A shallow embedding of [src/types.ts], the notification service
    (second part of [src/types.ts]: [scheduleNotification],
    [cancelNotification]) and [src/services/locationService.ts]
    ([calculateDistance], [checkReminders], [startWatchingLocation]),
    with the properties the specification states about them.

    Numbers.  The scheduler's arithmetic is on millisecond counts: the
    type [number] holds the finite doubles of integer value, as a [Z], and
    [NaN].  Products, sums and differences are rounded to the nearest
    double (53 bits, ties to even), so they are exact up to 2^53 and
    rounded beyond; a [Date] holds a time value of at most 8.64e15 ms in
    magnitude, and [NaN] otherwise ([TimeClip]).  Fractions and the two
    infinities are outside the type.
    The geofence arithmetic (degrees, metres, [Math.sin], [Math.cos],
    [Math.sqrt], [Math.atan2]) is over the real numbers: it is the formula
    the code evaluates in doubles, without their rounding.

    Callbacks.  Timeouts and position callbacks run one at a time, in any
    order the host chooses; each is an event of a step function on the
    state of the module and of the host tables it uses. *)

From Stdlib Require Import ZArith String Ascii List Lia Reals Lra.
From Stdlib Require Import DecimalString DecimalZ DecimalPos DecimalFacts.
From Equations Require Import Equations.
From stdpp Require Import gmap strings.

Local Open Scope Z_scope.

(* ===================================================================== *)
(** ** [src/types.ts]: the data model *)
(* ===================================================================== *)

Inductive TriggerType := Time | Location.
Inductive LocationTrigger := OnEnter | OnLeave.
Inductive IntervalUnit := Minutes | Hours | Days.
Inductive TriggerTimeType := Interval | Exact.

(** A JavaScript number as the scheduler meets it: a finite double of
    integer value, or [NaN].  A fraction and the two infinities (an
    interval above 1.7e308 after multiplication) are outside the type. *)
Inductive number := NaN | Num (z : Z).

(** [location?: { address, lat, lng, radius, triggerOn }] *)
Record GeoLocation := {
  address : string;
  lat : R;
  lng : R;
  radius : R;
  triggerOn : LocationTrigger
}.

(** [interface Reminder]; an optional field [f?: T] is an [option T],
    [None] standing for [undefined]. *)
Record Reminder := {
  id : string;
  createdAt : Z;
  text : string;
  triggerType : TriggerType;
  triggerTimeType : option TriggerTimeType;
  timeOfDay : option string;
  isRecurring : option bool;
  interval : option number;
  intervalUnit : option IntervalUnit;
  location : option GeoLocation;
  vibrate : bool;
  sound : string
}.

(* ===================================================================== *)
(** ** The JavaScript operations the engine uses *)
(* ===================================================================== *)

Module JS.

(** *** Arithmetic and comparison on [number]: [NaN] is absorbing for the
    arithmetic and makes every comparison false. *)

(** [Number.MAX_SAFE_INTEGER], 2^53 - 1. *)
Definition MAX_SAFE_INTEGER : Z := 9007199254740991.

(** The double nearest to an integer, ties to even: an integer below
    2^53 in magnitude is a double; from there on the doubles are the
    multiples of [ulp], the weight of the last of the 53 bits. *)
Definition roundDouble (z : Z) : Z :=
  let a := Z.abs z in
  if a <? 9007199254740992 then z
  else
    let ulp := 2 ^ (Z.log2 a - 52) in
    let q := a / ulp in
    let r := a mod ulp in
    let q' := if (ulp <? 2 * r) || ((2 * r =? ulp) && Z.odd q) then q + 1 else q in
    Z.sgn z * (q' * ulp).

(** [x * y], [x + y] and [x - y] on doubles of integer value. *)
Definition fmul (x y : Z) : Z := roundDouble (x * y).
Definition fadd (x y : Z) : Z := roundDouble (x + y).
Definition fsub (x y : Z) : Z := roundDouble (x - y).

Definition mul (a b : number) : number :=
  match a, b with
  | Num x, Num y => Num (fmul x y)
  | _, _ => NaN
  end.

Definition add (a b : number) : number :=
  match a, b with
  | Num x, Num y => Num (fadd x y)
  | _, _ => NaN
  end.

Definition sub (a b : number) : number :=
  match a, b with
  | Num x, Num y => Num (fsub x y)
  | _, _ => NaN
  end.

Definition le (a b : number) : bool :=
  match a, b with
  | Num x, Num y => x <=? y
  | _, _ => false
  end.

Definition gt (a b : number) : bool :=
  match a, b with
  | Num x, Num y => y <? x
  | _, _ => false
  end.

(** *** Truthiness ([ToBoolean]) of the optional fields. *)

Definition truthy_number (n : option number) : bool :=
  match n with
  | Some (Num z) => negb (z =? 0)
  | Some NaN => false
  | None => false
  end.

Definition truthy_string (s : option string) : bool :=
  match s with
  | Some EmptyString => false
  | Some _ => true
  | None => false
  end.

Definition truthy_bool (b : option bool) : bool :=
  match b with
  | Some true => true
  | _ => false
  end.

(** A value of an enum type is a non-empty string, hence truthy. *)
Definition truthy_enum {A : Type} (u : option A) : bool :=
  match u with
  | Some _ => true
  | None => false
  end.

(** [a || b] on an optional number and on an optional enum value. *)
Definition or_number (a : option number) (b : number) : number :=
  match a with
  | Some n => if truthy_number a then n else b
  | None => b
  end.

Definition or_enum {A : Type} (a : option A) (b : A) : A :=
  match a with
  | Some u => u
  | None => b
  end.

(** *** [String.prototype.split(':')] *)

Fixpoint split_aux (sep : ascii) (acc : string) (s : string) : list string :=
  match s with
  | EmptyString => [String.rev acc]
  | String c rest =>
      if Ascii.eqb c sep
      then String.rev acc :: split_aux sep EmptyString rest
      else split_aux sep (String c acc) rest
  end.

Definition split (sep : ascii) (s : string) : list string :=
  split_aux sep EmptyString s.

(** *** [Number(s)] on a string.

    The model decides the strings made of decimal digits only (their
    value) and the empty string ([0]).  Any other string is [NaN]
    here; that is what [StringToNumber] gives for a string such as
    ["noon"], which matches no numeric literal.  The signed, fractional,
    exponent, radix-prefixed and blank-padded literals that
    [StringToNumber] also accepts do not occur in an HH:MM time. *)

Definition digit_value (c : ascii) : option Z :=
  let n := Z.of_nat (nat_of_ascii c) in
  if (48 <=? n) && (n <=? 57) then Some (n - 48) else None.

Fixpoint digits_value (acc : Z) (s : string) : number :=
  match s with
  | EmptyString => Num acc
  | String c rest =>
      match digit_value c with
      | Some d => digits_value (10 * acc + d) rest
      | None => NaN
      end
  end.

Definition Number (s : string) : number := digits_value 0 s.

(** [ToNumber] of an array element that may be absent ([undefined]). *)
Definition ToNumber (v : option number) : number :=
  match v with
  | Some n => n
  | None => NaN
  end.

(** *** [Date]: time values and local time (ECMAScript, Date objects).

    A time value is a [number] of milliseconds since the epoch, [NaN]
    for an invalid date.  The host's zone is given by its offset at a
    UTC instant ([LocalTZA(t, true)]) and the offset that interprets a
    local time value ([LocalTZA(t, false)]); an offset is less than a day,
    so that adding it to a time value is exact. *)

Record TimeZone := {
  tza_utc : Z -> Z;
  tza_local : Z -> Z
}.

Definition msPerDay : Z := 86400000.
Definition msPerHour : Z := 3600000.
Definition msPerMinute : Z := 60000.
Definition msPerSecond : Z := 1000.

(** The largest magnitude of a time value: 100,000,000 days. *)
Definition maxTime : Z := 8640000000000000.

(** [TimeClip(time)] *)
Definition TimeClip (time : number) : number :=
  match time with
  | Num t => if maxTime <? Z.abs t then NaN else Num t
  | NaN => NaN
  end.

Definition LocalTime (tz : TimeZone) (t : Z) : Z := t + tza_utc tz t.
Definition UTC (tz : TimeZone) (t : Z) : Z := t - tza_local tz t.
Definition Day (t : Z) : Z := t / msPerDay.
Definition TimeWithinDay (t : Z) : Z := t mod msPerDay.

(** [MakeTime] and [MakeDate], whose arithmetic is that of doubles. *)
Definition MakeTime (hour min sec ms : Z) : Z :=
  fadd (fadd (fadd (fmul hour msPerHour) (fmul min msPerMinute))
             (fmul sec msPerSecond))
       ms.

Definition MakeDate (day time : Z) : Z := fadd (fmul day msPerDay) time.

(** [d.setHours(hour, min, sec, ms)] on the time value [t] of [d]. *)
Definition setHours (tz : TimeZone) (t hour min sec ms : number) : number :=
  match t, hour, min, sec, ms with
  | Num t, Num h, Num m, Num s, Num milli =>
      TimeClip (Num (UTC tz (MakeDate (Day (LocalTime tz t)) (MakeTime h m s milli))))
  | _, _, _, _, _ => NaN
  end.

(** [d.setDate(d.getDate() + 1)]: the day of the month plus one is the
    day number plus one ([MakeDay] of the same year and month), at the
    same local time within the day. *)
Definition setDateNext (tz : TimeZone) (t : number) : number :=
  match t with
  | Num t =>
      let lt := LocalTime tz t in
      TimeClip (Num (UTC tz (MakeDate (Day lt + 1) (TimeWithinDay lt))))
  | NaN => NaN
  end.

(** [d.setTime(time)] *)
Definition setTime (time : number) : number := TimeClip time.

(** A zone whose offset never changes. *)
Definition fixedZone (off : Z) : TimeZone :=
  {| tza_utc := fun _ => off; tza_local := fun _ => off |}.


(** *** Where the arithmetic of doubles is exact, and where it ends. *)

Lemma roundDouble_exact z : Z.abs z <= 9007199254740992 -> roundDouble z = z.
Proof.
  intros H. unfold roundDouble.
  destruct (Z.ltb_spec (Z.abs z) 9007199254740992) as [_ | Hge]; [done |].
  assert (Hz : z = 9007199254740992 \/ z = -9007199254740992) by lia.
  destruct Hz as [-> | ->]; reflexivity.
Qed.

Lemma roundDouble_large z :
  9007199254740992 <= Z.abs z ->
  9007199254740992 <= Z.abs (roundDouble z) /\ Z.sgn (roundDouble z) = Z.sgn z.
Proof.
  intros H. unfold roundDouble.
  destruct (Z.ltb_spec (Z.abs z) 9007199254740992) as [Hlt | _]; [lia |].
  set (a := Z.abs z) in *.
  assert (Ha : 0 < a) by lia.
  pose proof (Z.log2_spec a Ha) as [Hlo Hhi].
  assert (Hk : 53 <= Z.log2 a).
  { change 9007199254740992 with (2 ^ 53) in H.
    apply Z.log2_le_pow2; [lia | exact H]. }
  set (k := Z.log2 a) in *.
  set (ulp := 2 ^ (k - 52)).
  assert (Hulp : 0 < ulp) by (apply Z.pow_pos_nonneg; lia).
  assert (Hsplit : 2 ^ k = 4503599627370496 * ulp).
  { unfold ulp. change 4503599627370496 with (2 ^ 52). rewrite <- Z.pow_add_r by lia.
    f_equal. lia. }
  assert (Hq : 4503599627370496 <= a / ulp).
  { apply Z.div_le_lower_bound; lia. }
  match goal with
  | |- context [if ?c then ?x else ?y] => set (q' := if c then x else y)
  end.
  assert (Hq' : 4503599627370496 <= q').
  { unfold q'. match goal with |- context [if ?c then _ else _] => destruct c end; lia. }
  assert (Hprod : 9007199254740992 <= q' * ulp).
  { assert (2 <= ulp).
    { unfold ulp. change 2 with (2 ^ 1) at 1. apply Z.pow_le_mono_r; lia. }
    nia. }
  destruct (Z.sgn_spec z) as [[Hz ->] | [[Hz ->] | [Hz ->]]].
  - split; [lia |]. apply Z.sgn_pos. lia.
  - subst. simpl in *. lia.
  - split; [lia |]. apply Z.sgn_neg. lia.
Qed.

(** Rounding keeps the sign. *)
Lemma roundDouble_sgn z : Z.sgn (roundDouble z) = Z.sgn z.
Proof.
  destruct (Z_lt_le_dec (Z.abs z) 9007199254740992) as [H | H].
  - by rewrite roundDouble_exact by lia.
  - by apply roundDouble_large.
Qed.

(** A result below 2^53 has not been rounded. *)
Lemma roundDouble_small z : Z.abs (roundDouble z) < 9007199254740992 -> roundDouble z = z.
Proof.
  intros H. destruct (Z_lt_le_dec (Z.abs z) 9007199254740992) as [Hz | Hz].
  - apply roundDouble_exact. lia.
  - apply roundDouble_large in Hz. lia.
Qed.

Lemma TimeClip_Num t v : TimeClip t = Num v -> t = Num v /\ Z.abs v <= maxTime.
Proof.
  destruct t as [| z]; [done |]. simpl.
  destruct (Z.ltb_spec maxTime (Z.abs z)); [done |]. intros [= <-]. done.
Qed.

Lemma TimeClip_in_range v : Z.abs v <= maxTime -> TimeClip (Num v) = Num v.
Proof. intros H. simpl. destruct (Z.ltb_spec maxTime (Z.abs v)); [lia | done]. Qed.

(** A turn of the loop [d.setTime(d.getTime() + intervalMs)] that leaves a
    valid date has added [intervalMs] exactly. *)
Lemma setTime_add t p t' :
  setTime (add (Num t) (Num p)) = Num t' -> t' = t + p.
Proof.
  intros H. apply TimeClip_Num in H as [[= H] Hr]. subst t'.
  unfold fadd in *. apply roundDouble_small. unfold maxTime in Hr. lia.
Qed.

Lemma setTime_advances (p : positive) t t' :
  setTime (add (Num t) (Num (Zpos p))) = Num t' -> t < t'.
Proof. intros H. apply setTime_add in H. lia. Qed.

End JS.

(* ===================================================================== *)
(** ** The notification service (time scheduler) *)
(* ===================================================================== *)

Module NotificationService.
Import JS.

(** A pending [window.setTimeout]: the reminder its callback closes
    over and the delay it was armed with. *)
Record Timeout := {
  callbackReminder : Reminder;
  delay : number
}.

(** [scheduledNotifications] (reminder id to timeout handle), the
    window's table of pending timeouts and the next handle it gives. *)
Record World := {
  scheduledNotifications : gmap string Z;
  timeouts : gmap Z Timeout;
  nextTimeoutId : Z
}.

Definition initialWorld : World :=
  {| scheduledNotifications := ∅; timeouts := ∅; nextTimeoutId := 1 |}.

(** [getIntervalMilliseconds(interval, unit)]; the [default: return 0]
    arm of the source is for a value outside the enum [IntervalUnit]. *)
Definition getIntervalMilliseconds (interval : number) (unit : IntervalUnit) : number :=
  match unit with
  | Minutes => mul (mul interval (Num 60)) (Num 1000)
  | Hours => mul (mul (mul interval (Num 60)) (Num 60)) (Num 1000)
  | Days => mul (mul (mul (mul interval (Num 24)) (Num 60)) (Num 60)) (Num 1000)
  end.

(** A value with the proof that it is the value of an expression. *)
Definition inspect {A : Type} (a : A) : {b : A | a = b} := exist _ a eq_refl.

(** [while (targetDate.getTime() <= now.getTime())
       targetDate.setTime(targetDate.getTime() + intervalMs);]
    for a positive [intervalMs]: every turn moves the target forward, and
    a target that leaves the range of [Date] is [NaN], which ends the
    loop. *)
Equations? advanceWhile (intervalMs : positive) (now target : Z) : number
  by wf (Z.to_nat (now - target + 1)) lt :=
  advanceWhile intervalMs now target with Z_le_gt_dec target now := {
    | left _ with inspect (setTime (add (Num target) (Num (Zpos intervalMs)))) := {
        | exist _ (Num target') Hset := advanceWhile intervalMs now target';
        | exist _ NaN _ := NaN };
    | right _ := Num target }.
Proof.
  enough (target < target') by lia.
  exact (setTime_advances intervalMs target target' Hset).
Qed.

(** The loop on time values.  It is entered under [intervalMs > 0]; a
    [NaN] target fails the loop test at once. *)
Definition whileNotFuture (target now intervalMs : number) : number :=
  match target, now, intervalMs with
  | Num t, Num n, Num (Zpos p) => advanceWhile p n t
  | _, _, _ => target
  end.

(** [cancelNotification(id)] *)
Definition cancelNotification (id_ : string) (w : World) : World :=
  match scheduledNotifications w !! id_ with
  | Some timerId =>
      {| scheduledNotifications := delete id_ (scheduledNotifications w);
         timeouts := delete timerId (timeouts w);
         nextTimeoutId := nextTimeoutId w |}
  | None => w
  end.

(** [const [hours, minutes] = reminder.timeOfDay.split(':').map(Number);
     const targetDate = new Date(); targetDate.setHours(hours, minutes, 0, 0);]
    where [targetNow] is the clock read by that [new Date()]. *)
Definition todayOccurrence (tz : TimeZone) (targetNow : Z) (tod : string) : number :=
  let parts := map Number (split ":" tod) in
  let hours := ToNumber (parts !! 0%nat) in
  let minutes := ToNumber (parts !! 1%nat) in
  setHours tz (Num targetNow) hours minutes (Num 0) (Num 0).

(** The value of [targetDate.getTime()] when [delay] is computed, in
    Exact mode; [now] is the clock read by [const now = new Date()]. *)
Definition exactTarget (tz : TimeZone) (now targetNow : Z) (r : Reminder)
    (tod : string) : number :=
  let targetDate := todayOccurrence tz targetNow tod in
  if le targetDate (Num now) then
    if truthy_bool (isRecurring r) then
      let intervalMs :=
        getIntervalMilliseconds (or_number (interval r) (Num 1))
                                (or_enum (intervalUnit r) Days) in
      if gt intervalMs (Num 0)
      then whileNotFuture targetDate (Num now) intervalMs
      else setDateNext tz targetDate
    else setDateNext tz targetDate
  else targetDate.

Definition isExact (r : Reminder) : bool :=
  match triggerTimeType r with Some Exact => true | _ => false end.

Definition isInterval (r : Reminder) : bool :=
  match triggerTimeType r with Some Interval => true | _ => false end.

(** The value of [delay] at the test [if (delay <= 0) return;], or
    [None] when the Interval branch has returned before it. *)
Definition computeDelay (tz : TimeZone) (now targetNow : Z) (r : Reminder)
    : option number :=
  match (if isExact r && truthy_string (timeOfDay r) then timeOfDay r else None) with
  | Some tod => Some (sub (exactTarget tz now targetNow r tod) (Num now))
  | None =>
      if isInterval r then
        match interval r, intervalUnit r with
        | Some i, Some u =>
            if truthy_number (Some i) then Some (getIntervalMilliseconds i u) else None
        | _, _ => None
        end
      else Some (Num 0)
  end.

(** [window.setTimeout(callback, delay)]: a fresh handle. *)
Definition setTimeout (r : Reminder) (d : number) (w : World) : Z * World :=
  let handle := nextTimeoutId w in
  (handle,
   {| scheduledNotifications := scheduledNotifications w;
      timeouts := <[handle := {| callbackReminder := r; delay := d |}]> (timeouts w);
      nextTimeoutId := handle + 1 |}).

(** [scheduleNotification(reminder)] *)
Definition scheduleNotification (tz : TimeZone) (now targetNow : Z) (r : Reminder)
    (w : World) : World :=
  let w := cancelNotification (id r) w in
  match triggerType r with
  | Location => w
  | Time =>
      match computeDelay tz now targetNow r with
      | None => w
      | Some d =>
          if le d (Num 0) then w
          else
            let '(timeoutId, w) := setTimeout r d w in
            {| scheduledNotifications := <[id r := timeoutId]> (scheduledNotifications w);
               timeouts := timeouts w;
               nextTimeoutId := nextTimeoutId w |}
      end
  end.

(** The timeout [timeoutId] fires: the window drops it and runs the
    callback armed by [scheduleNotification].  The result lists the
    reminders passed to [showNotification]. *)
Definition fireTimeout (tz : TimeZone) (now targetNow : Z) (timeoutId : Z)
    (w : World) : list Reminder * World :=
  match timeouts w !! timeoutId with
  | None => ([], w)
  | Some t =>
      let r := callbackReminder t in
      let w := {| scheduledNotifications := scheduledNotifications w;
                  timeouts := delete timeoutId (timeouts w);
                  nextTimeoutId := nextTimeoutId w |} in
      ([r],
       if truthy_bool (isRecurring r)
       then scheduleNotification tz now targetNow r w
       else {| scheduledNotifications := delete (id r) (scheduledNotifications w);
               timeouts := timeouts w;
               nextTimeoutId := nextTimeoutId w |})
  end.

(** What can happen to the scheduler: its two exported operations and
    the firing of a pending timeout, each at some reading of the clock. *)
Inductive Event :=
| Schedule (now targetNow : Z) (r : Reminder)
| Cancel (id_ : string)
| Fire (now targetNow : Z) (timeoutId : Z).

Definition step (tz : TimeZone) (w : World) (e : Event) : World :=
  match e with
  | Schedule now targetNow r => scheduleNotification tz now targetNow r w
  | Cancel id_ => cancelNotification id_ w
  | Fire now targetNow timeoutId => snd (fireTimeout tz now targetNow timeoutId w)
  end.

Definition run (tz : TimeZone) (es : list Event) (w : World) : World :=
  fold_left (step tz) es w.

(** The pending timeouts whose callback belongs to reminder [id_]. *)
Definition liveTimers (id_ : string) (w : World) : gmap Z Timeout :=
  filter (fun kt => id (callbackReminder (snd kt)) = id_) (timeouts w).

End NotificationService.

(* ===================================================================== *)
(** ** [src/services/locationService.ts]: geo math and geofence tracker *)
(* ===================================================================== *)

Module LocationService.

Local Open Scope R_scope.

(** The geo math below is the formula of [calculateDistance] over the
    real numbers.  The code evaluates it in doubles, with the host's
    [Math.sin], [Math.cos], [Math.sqrt] and [Math.atan2]: there the term
    [a] can be rounded above 1 for two points that are nearly opposite on
    the sphere, [Math.sqrt(1 - a)] is then [NaN], and so are the distance
    and every comparison with it.  The properties of the tracker are
    stated over [isInside], whatever its value; its value is computed only
    at the places of the scenarios, 0 m and a quarter of the equator away
    from the centre of a fence of 100 m, where rounding does not decide. *)

(** [Math.atan2(y, x)] on the reals. *)
Definition atan2 (y x : R) : R :=
  if Rlt_dec 0 x then atan (y / x)
  else if Rlt_dec x 0 then
    (if Rle_dec 0 y then atan (y / x) + PI else atan (y / x) - PI)
  else if Rlt_dec 0 y then PI / 2
  else if Rlt_dec y 0 then - (PI / 2)
  else 0.

(** The constant [R = 6371e3] of [calculateDistance], in metres. *)
Definition earthRadius : R := 6371000.

(** The haversine term [a] of [calculateDistance]. *)
Definition haversine (lat1 lon1 lat2 lon2 : R) : R :=
  let phi1 := lat1 * PI / 180 in
  let phi2 := lat2 * PI / 180 in
  let dphi := (lat2 - lat1) * PI / 180 in
  let dlambda := (lon2 - lon1) * PI / 180 in
  sin (dphi / 2) * sin (dphi / 2) +
  cos phi1 * cos phi2 * sin (dlambda / 2) * sin (dlambda / 2).

Definition calculateDistance (lat1 lon1 lat2 lon2 : R) : R :=
  let a := haversine lat1 lon1 lat2 lon2 in
  let c := 2 * atan2 (sqrt a) (sqrt (1 - a)) in
  earthRadius * c.

(** [x <= y] as a boolean. *)
Definition Rleb (x y : R) : bool := if Rle_dec x y then true else false.

(** [position.coords] *)
Record Position := {
  latitude : R;
  longitude : R
}.

(** [distance <= reminder.location.radius] *)
Definition isInside (pos : Position) (loc : GeoLocation) : bool :=
  Rleb (calculateDistance (latitude pos) (longitude pos) (lat loc) (lng loc))
       (radius loc).

Local Close Scope R_scope.

Definition triggerOn_eqb (a b : LocationTrigger) : bool :=
  match a, b with
  | OnEnter, OnEnter | OnLeave, OnLeave => true
  | _, _ => false
  end.

(** One turn of the loop of [checkReminders]: the reminders passed to
    [onTrigger] so far and [locationStates] (the [wasInside] flag by
    reminder id). *)
Definition checkReminder (pos : Position)
    (acc : list Reminder * gmap string bool) (r : Reminder)
    : list Reminder * gmap string bool :=
  let '(fired, states) := acc in
  match location r with
  | None => acc
  | Some loc =>
      let inside := isInside pos loc in
      let wasInside := default inside (states !! id r) in
      let fired :=
        if negb (Bool.eqb wasInside inside) then
          if inside && triggerOn_eqb (triggerOn loc) OnEnter then fired ++ [r]
          else if negb inside && triggerOn_eqb (triggerOn loc) OnLeave then fired ++ [r]
          else fired
        else fired in
      (fired, <[id r := inside]> states)
  end.

(** [checkReminders(position, reminders, onTrigger)] *)
Definition checkReminders (pos : Position) (reminders : list Reminder)
    (states : gmap string bool) : list Reminder * gmap string bool :=
  fold_left (checkReminder pos) reminders ([], states).

(** The body of the success callback given to [getCurrentPosition]. *)
Definition initStates (pos : Position) (reminders : list Reminder)
    (states : gmap string bool) : gmap string bool :=
  fold_left
    (fun states r =>
       match location r with
       | None => states
       | Some loc => <[id r := isInside pos loc]> states
       end)
    reminders states.

(** [GeolocationPositionError.code] *)
Inductive PositionError := PERMISSION_DENIED | POSITION_UNAVAILABLE | TIMEOUT.

Inductive AlertMessage := PermissionDeniedAlert | NoLocationAlert.

(** What the tracker does to the outside: calls of [onTrigger],
    [console.error] and [alert]. *)
Inductive Effect :=
| Trigger (r : Reminder)
| ConsoleError (err : PositionError)
| Alert (msg : AlertMessage).

(** The module's variables [watchId] and [locationStates], and what
    [navigator.geolocation] holds for it: the live [watchPosition]
    registrations (by id, with the reminders their callbacks close
    over; all are registered with [handleError]) and the pending
    [getCurrentPosition] requests (with the reminders of their success
    callback; none has an error callback). *)
Record Tracker := {
  watchId : option Z;
  locationStates : gmap string bool;
  watches : gmap Z (list Reminder);
  positionRequests : list (list Reminder);
  nextWatchId : Z
}.

Definition initialTracker : Tracker :=
  {| watchId := None; locationStates := ∅; watches := ∅;
     positionRequests := []; nextWatchId := 1 |}.

(** [stopWatchingLocation()] *)
Definition stopWatchingLocation (t : Tracker) : Tracker :=
  match watchId t with
  | Some w =>
      {| watchId := None;
         locationStates := locationStates t;
         watches := delete w (watches t);
         positionRequests := positionRequests t;
         nextWatchId := nextWatchId t |}
  | None => t
  end.

(** [startWatchingLocation(reminders, onTrigger)], up to its return:
    the two position callbacks run later, as events. *)
Definition startWatchingLocation (reminders : list Reminder) (t : Tracker) : Tracker :=
  let t := match watchId t with Some _ => stopWatchingLocation t | None => t end in
  let w := nextWatchId t in
  {| watchId := Some w;
     locationStates := ∅;
     watches := <[w := reminders]> (watches t);
     positionRequests := positionRequests t ++ [reminders];
     nextWatchId := w + 1 |}.

(** [handleError(error)] *)
Definition handleError (err : PositionError) (t : Tracker) : list Effect * Tracker :=
  ([ConsoleError err;
    Alert (match err with
           | PERMISSION_DENIED => PermissionDeniedAlert
           | _ => NoLocationAlert
           end)],
   stopWatchingLocation t).

(** The calls into the tracker: its two exported functions, and the
    callbacks [navigator.geolocation] makes: the answer (a position or
    an error) to the [k]-th pending [getCurrentPosition] request, and a
    sample or an error for the watch [w].  The host is taken to call back
    for a registered watch only: a sample that was under way when
    [clearWatch] was called, and is delivered after it, is not among the
    events. *)
Inductive Event :=
| Start (reminders : list Reminder)
| Stop
| CurrentPosition (k : nat) (pos : Position)
| CurrentPositionError (k : nat) (err : PositionError)
| WatchPosition (w : Z) (pos : Position)
| WatchError (w : Z) (err : PositionError).

Definition withStates (states : gmap string bool) (t : Tracker) : Tracker :=
  {| watchId := watchId t; locationStates := states; watches := watches t;
     positionRequests := positionRequests t; nextWatchId := nextWatchId t |}.

Definition dropRequest (k : nat) (t : Tracker) : Tracker :=
  {| watchId := watchId t; locationStates := locationStates t;
     watches := watches t;
     positionRequests := delete k (positionRequests t);
     nextWatchId := nextWatchId t |}.

Definition step (t : Tracker) (e : Event) : list Effect * Tracker :=
  match e with
  | Start reminders => ([], startWatchingLocation reminders t)
  | Stop => ([], stopWatchingLocation t)
  | CurrentPosition k pos =>
      match positionRequests t !! k with
      | Some reminders =>
          ([], withStates (initStates pos reminders (locationStates t)) (dropRequest k t))
      | None => ([], t)
      end
  | CurrentPositionError k err =>
      match positionRequests t !! k with
      | Some _ => ([], dropRequest k t)
      | None => ([], t)
      end
  | WatchPosition w pos =>
      match watches t !! w with
      | Some reminders =>
          let '(fired, states) := checkReminders pos reminders (locationStates t) in
          (map Trigger fired, withStates states t)
      | None => ([], t)
      end
  | WatchError w err =>
      match watches t !! w with
      | Some _ => handleError err t
      | None => ([], t)
      end
  end.

(** A run of the tracker: the effects in order and the final state. *)
Fixpoint run (es : list Event) (t : Tracker) : list Effect * Tracker :=
  match es with
  | [] => ([], t)
  | e :: es =>
      let '(out, t) := step t e in
      let '(outs, t) := run es t in
      (out ++ outs, t)
  end.

End LocationService.

(* ===================================================================== *)
(** ** The reminders hook ([useReminders], [src/unnamed/part_000]) and
       [handleSave] of [src/App.tsx] *)
(* ===================================================================== *)

Module RemindersHook.
Import JS NotificationService.

(** [n.toString()] for an integer [n]: its decimal text. *)
Definition toString (n : Z) : string := NilZero.string_of_int (Z.to_int n).

(** [{ ...reminder, id: i, createdAt: c }] *)
Definition withIdentity (i : string) (c : Z) (reminder : Reminder) : Reminder :=
  {| id := i; createdAt := c; text := text reminder;
     triggerType := triggerType reminder;
     triggerTimeType := triggerTimeType reminder;
     timeOfDay := timeOfDay reminder; isRecurring := isRecurring reminder;
     interval := interval reminder; intervalUnit := intervalUnit reminder;
     location := location reminder;
     vibrate := vibrate reminder; sound := sound reminder |}.

(** [addReminder(reminder)], as a function of the previous list; [now1]
    and [now2] are the two readings of [Date.now()]. *)
Definition addReminder (now1 now2 : Z) (reminder : Reminder)
    (prev : list Reminder) : list Reminder :=
  prev ++ [withIdentity (toString now1) now2 reminder].

(** [updateReminder(updatedReminder)] *)
Definition updateReminder (updatedReminder : Reminder)
    (prev : list Reminder) : list Reminder :=
  map (fun r => if String.eqb (id r) (id updatedReminder) then updatedReminder else r)
      prev.

(** [deleteReminder(id)]: the scheduler's world after
    [cancelNotification(id)] and the new list. *)
Definition deleteReminder (id_ : string) (prev : list Reminder) (w : World)
    : list Reminder * World :=
  (List.filter (fun r => negb (String.eqb (id r) id_)) prev,
   cancelNotification id_ w).

(** [importReminders(newReminders)] *)
Definition importReminders (newReminders prev : list Reminder) : list Reminder :=
  prev ++ newReminders.

(** [handleSave(reminder)] of [App]: an update when the id is in the
    list, else an addition under a new id and creation time. *)
Definition handleSave (now1 now2 : Z) (reminder : Reminder)
    (reminders : list Reminder) : list Reminder :=
  if existsb (fun r => String.eqb (id r) (id reminder)) reminders
  then updateReminder reminder reminders
  else addReminder now1 now2 reminder reminders.

Definition isTime (r : Reminder) : bool :=
  match triggerType r with Time => true | Location => false end.

Definition isLocation (r : Reminder) : bool :=
  match triggerType r with Location => true | Time => false end.

(** [timeBasedReminders.forEach(scheduleNotification)]; [clock k] gives
    the two clock readings of the [k]-th call. *)
Fixpoint scheduleAll (tz : TimeZone) (clock : nat -> Z * Z) (k : nat)
    (reminders : list Reminder) (w : World) : World :=
  match reminders with
  | [] => w
  | r :: rest =>
      scheduleAll tz clock (S k) rest
        (scheduleNotification tz (fst (clock k)) (snd (clock k)) r w)
  end.

(** The engine part of the effect that runs when [reminders] has changed
    (the write to [localStorage] before it is left out): all time-based
    reminders are scheduled, and the location watch is started on the
    location-based ones, or stopped when there is none. *)
Definition remindersEffect (tz : TimeZone) (clock : nat -> Z * Z)
    (reminders : list Reminder) (w : World) (t : LocationService.Tracker)
    : World * LocationService.Tracker :=
  let timeBasedReminders := List.filter isTime reminders in
  let locationBasedReminders := List.filter isLocation reminders in
  (scheduleAll tz clock 0 timeBasedReminders w,
   match locationBasedReminders with
   | _ :: _ => LocationService.startWatchingLocation locationBasedReminders t
   | [] => LocationService.stopWatchingLocation t
   end).

(** A change of [reminders]: the cleanup of the previous effect
    ([stopWatchingLocation]), then the effect. *)
Definition remindersChanged (tz : TimeZone) (clock : nat -> Z * Z)
    (reminders : list Reminder) (w : World) (t : LocationService.Tracker)
    : World * LocationService.Tracker :=
  remindersEffect tz clock reminders w (LocationService.stopWatchingLocation t).

End RemindersHook.

(* ===================================================================== *)
(** ** The Gemini service ([parseReminderFromText], [src/unnamed/part_001]) *)
(* ===================================================================== *)

Module GeminiService.

(** The object [JSON.parse] gives for a response that follows
    [reminderSchema]; an absent or [null] property is [None]. *)
Record ParsedLocation := {
  parsedAddress : option string;
  parsedTriggerOn : option LocationTrigger
}.

Record ParsedData := {
  parsedText : option string;
  parsedTriggerType : option TriggerType;
  parsedIsRecurring : option bool;
  parsedInterval : option number;
  parsedIntervalUnit : option IntervalUnit;
  parsedLocation : option ParsedLocation;
  parsedVibrate : option bool;
  parsedSound : option string
}.

(** The [Partial<Reminder>] the function returns. *)
Record PartialReminder := {
  resultText : string;
  resultTriggerType : TriggerType;
  resultVibrate : bool;
  resultSound : string;
  resultIsRecurring : option bool;
  resultInterval : option number;
  resultIntervalUnit : option IntervalUnit;
  resultLocation : option GeoLocation
}.

Definition keyMessage : string :=
  "Gemini API Key is not configured. Please set it in the settings.".
Definition detailsMessage : string :=
  "Could not extract necessary reminder details.".
Definition locationMessage : string :=
  "Please specify a location for the reminder.".
Definition understandMessage : string :=
  "Sorry, I couldn't understand that. Please try again with a clearer instruction.".
(** Stands for the message of whatever the request or [JSON.parse]
    throws. *)
Definition requestMessage : string := "request failed".

(** The body of the [try] block from the validation on: the result, or
    the message of the error thrown. *)
Definition buildResult (parsedData : ParsedData) : string + PartialReminder :=
  match (if JS.truthy_string (parsedText parsedData) then parsedText parsedData else None),
        parsedTriggerType parsedData with
  | Some text_, Some triggerType_ =>
      let vibrate_ := default false (parsedVibrate parsedData) in
      let sound_ := default "default"%string (parsedSound parsedData) in
      match triggerType_, parsedLocation parsedData with
      | Time, _ =>
          inr {| resultText := text_; resultTriggerType := Time;
                 resultVibrate := vibrate_; resultSound := sound_;
                 resultIsRecurring := Some (default false (parsedIsRecurring parsedData));
                 resultInterval := Some (default (Num 1) (parsedInterval parsedData));
                 resultIntervalUnit :=
                   Some (default Minutes (parsedIntervalUnit parsedData));
                 resultLocation := None |}
      | Location, Some loc =>
          inr {| resultText := text_; resultTriggerType := Location;
                 resultVibrate := vibrate_; resultSound := sound_;
                 resultIsRecurring := None; resultInterval := None;
                 resultIntervalUnit := None;
                 resultLocation :=
                   Some {| address :=
                             if JS.truthy_string (parsedAddress loc)
                             then default EmptyString (parsedAddress loc)
                             else "Unknown Location"%string;
                           lat := 0; lng := 0; radius := 100;
                           triggerOn := default OnEnter (parsedTriggerOn loc) |} |}
      | Location, None => inl locationMessage
      end
  | _, _ => inl detailsMessage
  end.

(** [parseReminderFromText(text, apiKey)], given what the request and
    [JSON.parse] produce: the parsed object, or [None] when either
    throws.  The result is the value of the promise: the message of the
    error it rejects with, or the reminder. *)
Definition parseReminderFromText (apiKey : string) (response : option ParsedData)
    : string + PartialReminder :=
  match apiKey with
  | EmptyString => inl keyMessage
  | _ =>
      match (match response with
             | Some parsedData => buildResult parsedData
             | None => inl requestMessage
             end) with
      | inr result => inr result
      | inl _ => inl understandMessage
      end
  end.

End GeminiService.

(* ===================================================================== *)
(** ** Vocabulary of the specification *)
(* ===================================================================== *)

Import JS NotificationService.

(** Milliseconds in one interval unit, as the specification lists them. *)
Definition unitMs (u : IntervalUnit) : Z :=
  match u with
  | Minutes => 60000
  | Hours => 3600000
  | Days => 86400000
  end.




(** The world after [scheduleNotification] has armed a timeout of delay
    [d] for [r] in [w]: the old entry of [id r] is gone, the new handle is
    the window's next one. *)
Definition armed (r : Reminder) (d : number) (w : World) : World :=
  let w0 := cancelNotification (id r) w in
  let handle := nextTimeoutId w in
  {| scheduledNotifications := <[id r := handle]> (scheduledNotifications w0);
     timeouts := <[handle := {| callbackReminder := r; delay := d |}]> (timeouts w0);
     nextTimeoutId := handle + 1 |}.

(** A time reminder with the given mode, time of day, recurrence and
    interval. *)
Definition timeReminder (mode : TriggerTimeType) (tod : option string)
    (recurring : option bool) (n : option number) (u : option IntervalUnit) : Reminder :=
  {| id := "1793500000000"; createdAt := 1793500000000; text := "stand up";
     triggerType := Time; triggerTimeType := Some mode;
     timeOfDay := tod; isRecurring := recurring;
     interval := n; intervalUnit := u;
     location := None; vibrate := true; sound := "chime" |}.


(** A reminder whose time of day does not parse into hours and minutes. *)
Definition noonReminder (recurring : option bool) : Reminder :=
  {| id := "1730000000000"; createdAt := 1730000000000; text := "lunch";
     triggerType := Time; triggerTimeType := Some Exact;
     timeOfDay := Some "noon"%string; isRecurring := recurring;
     interval := Some (Num 1); intervalUnit := Some Days;
     location := None; vibrate := false; sound := "default" |}.


(** The scheduler's map and the window's pending timeouts agree: a
    pending timeout is the one recorded for its reminder's id, a recorded
    handle is pending for that id, and handles are given in increasing
    order. *)
Record consistent (w : World) : Prop := {
  timer_recorded : forall h t,
    timeouts w !! h = Some t ->
    scheduledNotifications w !! id (callbackReminder t) = Some h;
  record_pending : forall i h,
    scheduledNotifications w !! i = Some h ->
    exists t, timeouts w !! h = Some t /\ id (callbackReminder t) = i;
  handle_given : forall h,
    is_Some (timeouts w !! h) -> h < nextTimeoutId w
}.

(** The rule of the specification for one reminder and one sample, read
    against the stored states: a stored [insideRadius] exists, differs
    from the sample's, and the direction of the change is the reminder's
    [triggerOn]. *)
Definition transitionFires (pos : LocationService.Position)
    (states : gmap string bool) (r : Reminder) : bool :=
  match location r with
  | Some loc =>
      match states !! id r with
      | Some was =>
          negb (Bool.eqb was (LocationService.isInside pos loc))
          && (if LocationService.isInside pos loc
              then LocationService.triggerOn_eqb (triggerOn loc) OnEnter
              else LocationService.triggerOn_eqb (triggerOn loc) OnLeave)
      | None => false
      end
  | None => false
  end.

(** A location reminder around the point (0, 0). *)
Definition originReminder (trig : LocationTrigger) : Reminder :=
  {| id := "1793500000001"; createdAt := 1793500000001; text := "buy milk";
     triggerType := Location; triggerTimeType := None;
     timeOfDay := None; isRecurring := Some false;
     interval := None; intervalUnit := None;
     location := Some {| address := "Null Island"; lat := 0; lng := 0;
                         radius := 100; triggerOn := trig |};
     vibrate := false; sound := "default" |}.

Definition origin : LocationService.Position :=
  {| LocationService.latitude := 0; LocationService.longitude := 0 |}.

(** The reminder of [originReminder] after [updateReminder] has given it
    another place, a quarter of the equator away: the id is the same. *)
Definition movedReminder (trig : LocationTrigger) : Reminder :=
  {| id := "1793500000001"; createdAt := 1793500000001; text := "buy milk";
     triggerType := Location; triggerTimeType := None;
     timeOfDay := None; isRecurring := Some false;
     interval := None; intervalUnit := None;
     location := Some {| address := "Quarter turn"; lat := 0; lng := 90;
                         radius := 100; triggerOn := trig |};
     vibrate := false; sound := "default" |}.

(** The point of the equator opposite to (0, 0). *)
Definition antipode : LocationService.Position :=
  {| LocationService.latitude := 0; LocationService.longitude := 180 |}.

(** At most one watch is registered with the host, and it is the one
    [watchId] names. *)
Definition tracked (t : LocationService.Tracker) : Prop :=
  match LocationService.watchId t with
  | Some w => exists rs, LocationService.watches t = {[w := rs]}
  | None => LocationService.watches t = ∅
  end.

(** No character of the string is the separator. *)
Definition withoutChar (sep : ascii) (s : string) : Prop :=
  forall c, In c (list_ascii_of_string s) -> c <> sep.

(** A one-time reminder in 10 minutes. *)
Definition inTenMinutes : Reminder :=
  {| id := "1793500000002"; createdAt := 1793500000002; text := "tea";
     triggerType := Time; triggerTimeType := Some Interval;
     timeOfDay := None; isRecurring := Some false;
     interval := Some (Num 10); intervalUnit := Some Minutes;
     location := None; vibrate := false; sound := "beep" |}.

(** The scenario reminder of the specification: every 10 minutes. *)
Definition tenMinutes : Reminder :=
  timeReminder Interval None (Some true) (Some (Num 10)) (Some Minutes).

(* ===================================================================== *)
(** ** The time scheduler: delays *)
(* ===================================================================== *)

Section Delays.

Variable tz : TimeZone.
Variables now targetNow : Z.

Lemma cancelNotification_nextTimeoutId i w :
  nextTimeoutId (cancelNotification i w) = nextTimeoutId w.
Proof. unfold cancelNotification. by destruct (_ !! i). Qed.

Lemma cancelNotification_lookup_eq i w :
  scheduledNotifications (cancelNotification i w) !! i = None.
Proof.
  unfold cancelNotification.
  destruct (scheduledNotifications w !! i) eqn:E; simpl; [apply lookup_delete_eq | done].
Qed.

Lemma cancelNotification_timeouts i w :
  timeouts (cancelNotification i w) ⊆ timeouts w.
Proof.
  unfold cancelNotification.
  destruct (scheduledNotifications w !! i); simpl; [apply delete_subseteq | done].
Qed.

(** What [scheduleNotification] does once the delay is known. *)
Lemma scheduleNotification_armed r d w :
  triggerType r = Time ->
  computeDelay tz now targetNow r = Some d ->
  le d (Num 0) = false ->
  scheduleNotification tz now targetNow r w = armed r d w.
Proof.
  intros Ht Hd Hle. unfold scheduleNotification, armed, setTimeout.
  rewrite Ht, Hd, Hle. simpl. by rewrite cancelNotification_nextTimeoutId.
Qed.

Lemma scheduleNotification_returns r w :
  triggerType r = Time ->
  computeDelay tz now targetNow r = None \/
  (exists d, computeDelay tz now targetNow r = Some d /\ le d (Num 0) = true) ->
  scheduleNotification tz now targetNow r w = cancelNotification (id r) w.
Proof.
  intros Ht [Hd | (d & Hd & Hle)]; unfold scheduleNotification;
    rewrite Ht, Hd; [done | by rewrite Hle].
Qed.

(** Within the safe integers the chained products are exact. *)
Lemma getIntervalMilliseconds_Num n u :
  Z.abs (n * unitMs u) <= MAX_SAFE_INTEGER ->
  getIntervalMilliseconds (Num n) u = Num (n * unitMs u).
Proof.
  unfold MAX_SAFE_INTEGER. intros H. destruct u; simpl in *; unfold fmul.
  - rewrite (roundDouble_exact (n * 60)) by lia.
    rewrite roundDouble_exact by lia. f_equal. lia.
  - rewrite (roundDouble_exact (n * 60)) by lia.
    rewrite (roundDouble_exact (n * 60 * 60)) by lia.
    rewrite roundDouble_exact by lia. f_equal. lia.
  - rewrite (roundDouble_exact (n * 24)) by lia.
    rewrite (roundDouble_exact (n * 24 * 60)) by lia.
    rewrite (roundDouble_exact (n * 24 * 60 * 60)) by lia.
    rewrite roundDouble_exact by lia. f_equal. lia.
Qed.

(** Rounded or not, the product has the sign of the interval. *)
Lemma getIntervalMilliseconds_sgn n u :
  exists v, getIntervalMilliseconds (Num n) u = Num v /\ Z.sgn v = Z.sgn n.
Proof.
  destruct u; simpl; eexists; (split; [reflexivity |]); unfold fmul;
    repeat (rewrite roundDouble_sgn || rewrite Z.sgn_mul); simpl; lia.
Qed.

(** The Interval branch returns on any falsy [interval] or
    [intervalUnit], the Exact test fails on any falsy [timeOfDay]. *)
Lemma computeDelay_interval_falsy r :
  triggerTimeType r = Some Interval ->
  truthy_number (interval r) = false \/ truthy_enum (intervalUnit r) = false ->
  computeDelay tz now targetNow r = None.
Proof.
  intros Hm H. unfold computeDelay, isExact, isInterval. rewrite Hm.
  destruct (interval r) as [i|], (intervalUnit r) as [u|]; try done.
  destruct H as [H | H]; [| done].
  change (andb false _) with false. cbv iota. by rewrite H.
Qed.

Lemma computeDelay_exact_falsy r :
  triggerTimeType r = Some Exact ->
  truthy_string (timeOfDay r) = false ->
  computeDelay tz now targetNow r = Some (Num 0).
Proof.
  intros Hm H. unfold computeDelay, isExact, isInterval. rewrite Hm, H. done.
Qed.

End Delays.

(** C3, as the code has it.  In Interval mode with a positive [interval]
    and a unit, whatever the clock and the zone, when [interval * unitMs]
    is a safe integer (at most 2^53 - 1): [scheduleNotification] arms a
    timeout whose delay is exactly [interval * unitMs], with 60,000 ms for
    a minute, 3,600,000 for an hour and 86,400,000 for a day. *)
Theorem interval_mode_delay (tz : TimeZone) (now targetNow : Z) (r : Reminder)
    (w : World) (n : Z) (u : IntervalUnit) :
  triggerType r = Time ->
  triggerTimeType r = Some Interval ->
  interval r = Some (Num n) -> 0 < n ->
  intervalUnit r = Some u ->
  n * unitMs u <= MAX_SAFE_INTEGER ->
  scheduleNotification tz now targetNow r w = armed r (Num (n * unitMs u)) w
  /\ unitMs Minutes = 60000 /\ unitMs Hours = 3600000 /\ unitMs Days = 86400000.
Proof.
  intros Ht Hm Hi Hn Hu Hsafe. split; [| done].
  assert (Hpos : 0 < n * unitMs u) by (destruct u; simpl; lia).
  apply scheduleNotification_armed; [done | |].
  - unfold computeDelay, isExact, isInterval. rewrite Hm, Hi, Hu. simpl.
    destruct (Z.eqb_spec n 0) as [-> | _]; [lia |]. simpl.
    by rewrite getIntervalMilliseconds_Num by lia.
  - simpl. apply Z.leb_gt. lia.
Qed.

(** C3, as stated, fails where the product leaves the safe integers: for
    an interval of 2^53 - 1 days the four multiplications of
    [getIntervalMilliseconds] round, and the timeout is armed with
    778,222,015,609,621,574,582,272 ms, which is not the product. *)
Lemma interval_mode_delay_rounded :
  scheduleNotification (fixedZone 0) 1793504100000 1793504100000
    (timeReminder Interval None (Some true) (Some (Num 9007199254740991)) (Some Days))
    initialWorld
  = armed (timeReminder Interval None (Some true) (Some (Num 9007199254740991)) (Some Days))
          (Num 778222015609621574582272) initialWorld
  /\ 778222015609621574582272 <> 9007199254740991 * unitMs Days.
Proof. split; [vm_compute; reflexivity | vm_compute; discriminate]. Qed.

(** C4.  A Time reminder without [interval] or without [intervalUnit] in
    Interval mode, or without [timeOfDay] in Exact mode (recurring or
    not), makes [scheduleNotification] do no more than its initial
    [cancelNotification]: nothing is armed, and the function returns
    normally. *)
Theorem configuration_error_is_noop (tz : TimeZone) (now targetNow : Z)
    (r : Reminder) (w : World) :
  triggerType r = Time ->
  (triggerTimeType r = Some Interval /\ (interval r = None \/ intervalUnit r = None))
  \/ (triggerTimeType r = Some Exact /\ timeOfDay r = None) ->
  let w' := scheduleNotification tz now targetNow r w in
  w' = cancelNotification (id r) w
  /\ scheduledNotifications w' !! id r = None
  /\ timeouts w' ⊆ timeouts w
  /\ nextTimeoutId w' = nextTimeoutId w.
Proof.
  intros Ht H w'.
  assert (Hw : w' = cancelNotification (id r) w).
  { apply scheduleNotification_returns; [done |].
    destruct H as [[Hm H] | [Hm H]].
    - left. apply computeDelay_interval_falsy; [done |].
      destruct H as [-> | ->]; auto.
    - right. exists (Num 0). split; [| done].
      apply computeDelay_exact_falsy; [done | by rewrite H]. }
  rewrite Hw. split; [done |].
  split; [apply cancelNotification_lookup_eq |].
  split; [apply cancelNotification_timeouts | apply cancelNotification_nextTimeoutId].
Qed.

(** C10.  For the reminder whose [timeOfDay] is ["noon"], in Exact mode:
    the delay is [NaN], the test [delay <= 0] is false, and
    [scheduleNotification] arms a timeout with that [NaN] delay. *)
Theorem unparsable_time_arms_nan_timer (tz : TimeZone) (now targetNow : Z)
    (recurring : option bool) (w : World) :
  let r := noonReminder recurring in
  computeDelay tz now targetNow r = Some NaN
  /\ le NaN (Num 0) = false
  /\ scheduleNotification tz now targetNow r w = armed r NaN w
  /\ (exists t, timeouts (scheduleNotification tz now targetNow r w) !! nextTimeoutId w
                = Some t /\ delay t = NaN).
Proof.
  intros r.
  assert (Hd : computeDelay tz now targetNow r = Some NaN) by reflexivity.
  assert (Hs : scheduleNotification tz now targetNow r w = armed r NaN w)
    by (by apply scheduleNotification_armed).
  repeat split; try done.
  rewrite Hs. eexists. split; [apply lookup_insert_eq | done].
Qed.

(* ===================================================================== *)
(** ** The time scheduler: Exact mode *)
(* ===================================================================== *)

Section ExactMode.

(** While the next multiple of the interval is a valid date, the loop
    stops on the first one after [now]. *)
Lemma advanceWhile_multiple p now t :
  - maxTime <= t -> now + Zpos p <= maxTime ->
  exists k, 0 <= k
    /\ advanceWhile p now t = Num (t + k * Zpos p)
    /\ now < t + k * Zpos p
    /\ (t <= now -> 0 < k /\ t + k * Zpos p - Zpos p <= now)
    /\ (now < t -> k = 0).
Proof.
  funelim (advanceWhile p now t); intros Hlo Hhi.
  - exists 0. repeat split; try lia. f_equal. lia.
  - exfalso.
    match goal with e : setTime _ = NaN |- _ => pose proof e as Hset end.
    unfold setTime, add, fadd in Hset.
    rewrite roundDouble_exact in Hset by (unfold maxTime in *; lia).
    rewrite TimeClip_in_range in Hset by (unfold maxTime in *; lia). done.
  - match goal with e : setTime _ = Num _ |- _ =>
      pose proof (setTime_add _ _ _ e) as -> end.
    match goal with IH : _ -> _ -> exists _, _ |- _ =>
      destruct IH as (k & Hk & Hval & Hfut & Hpast & Hzero); [lia | lia |] end.
    exists (k + 1).
    split; [lia |]. split; [rewrite Hval; f_equal; lia |].
    split; [lia |]. split; [| lia].
    intros _. split; [lia |].
    destruct (Z_le_gt_dec (target + Z.pos intervalMs) now) as [Hle | Hgt].
    + apply Hpast in Hle. lia.
    + rewrite Hzero by lia. lia.
Qed.

Lemma whileNotFuture_next n now t :
  0 < n -> t <= now -> - maxTime <= t -> now + n <= maxTime ->
  exists k, 0 < k
    /\ whileNotFuture (Num t) (Num now) (Num n) = Num (t + k * n)
    /\ now < t + k * n
    /\ t + k * n <= now + n
    /\ (forall j, now < t + j * n -> k <= j).
Proof.
  intros Hn Ht Hlo Hhi. destruct n as [| p | p]; try lia. simpl.
  destruct (advanceWhile_multiple p now t Hlo Hhi) as (k & Hk & Heq & Hfut & Hpast & _).
  destruct (Hpast Ht) as [Hk' Hprev].
  exists k. split; [done |]. split; [done |]. split; [lia |]. split; [lia |].
  intros j Hjn. nia.
Qed.

(** Today's occurrence, when there is one, is a valid date. *)
Lemma todayOccurrence_in_range tz targetNow tod t0 :
  todayOccurrence tz targetNow tod = Num t0 -> Z.abs t0 <= maxTime.
Proof.
  unfold todayOccurrence, setHours. intros H.
  repeat match type of H with
         | match ?x with _ => _ end = _ => destruct x; try discriminate
         end.
  by apply TimeClip_Num in H as [_ H].
Qed.

(** A time that has an occurrence today is not the empty string. *)
Lemma todayOccurrence_truthy tz targetNow tod t0 :
  todayOccurrence tz targetNow tod = Num t0 -> truthy_string (Some tod) = true.
Proof. destruct tod; [discriminate | done]. Qed.

Lemma computeDelay_exact tz now targetNow r tod :
  triggerTimeType r = Some Exact ->
  timeOfDay r = Some tod ->
  truthy_string (Some tod) = true ->
  computeDelay tz now targetNow r
  = Some (sub (exactTarget tz now targetNow r tod) (Num now)).
Proof.
  intros Hm Htod Htruthy. unfold computeDelay, isExact.
  rewrite Hm, Htod, Htruthy. done.
Qed.

End ExactMode.

(** C1, as the code has it.  Exact mode, recurring, with a positive
    [interval] and a unit, when today's occurrence [t0] of [timeOfDay] is
    not after the call moment [now], the interval [interval * unitMs] is a
    safe integer (at most 2^53 - 1) and one interval after [now] is still
    a valid date (at most 8.64e15 ms): the fire target is [t0] plus a
    whole number [k >= 1] of intervals, it is strictly after [now], no
    whole multiple of the interval added to [t0] gives an earlier instant
    after [now], and the timeout is armed with the positive delay
    [target - now]. *)
Theorem exact_recurring_next_occurrence (tz : TimeZone) (now targetNow : Z)
    (r : Reminder) (w : World) (tod : string) (t0 n : Z) (u : IntervalUnit) :
  triggerType r = Time ->
  triggerTimeType r = Some Exact ->
  isRecurring r = Some true ->
  timeOfDay r = Some tod ->
  interval r = Some (Num n) -> 0 < n ->
  intervalUnit r = Some u ->
  todayOccurrence tz targetNow tod = Num t0 ->
  t0 <= now ->
  n * unitMs u <= MAX_SAFE_INTEGER ->
  now + n * unitMs u <= maxTime ->
  exists k : Z,
    0 < k
    /\ exactTarget tz now targetNow r tod = Num (t0 + k * (n * unitMs u))
    /\ now < t0 + k * (n * unitMs u)
    /\ (forall j : Z, now < t0 + j * (n * unitMs u) -> k <= j)
    /\ scheduleNotification tz now targetNow r w
       = armed r (Num (t0 + k * (n * unitMs u) - now)) w.
Proof.
  intros Ht Hm Hrec Htod Hi Hn Hu Ht0 Hpast Hsafe Hrange.
  assert (Hms : 0 < n * unitMs u) by (destruct u; simpl; lia).
  pose proof (todayOccurrence_in_range _ _ _ _ Ht0) as Hvalid.
  destruct (whileNotFuture_next (n * unitMs u) now t0 Hms Hpast ltac:(lia) Hrange)
    as (k & Hk & Hloop & Hfut & Hnext & Hmin).
  assert (Htarget : exactTarget tz now targetNow r tod = Num (t0 + k * (n * unitMs u))).
  { unfold exactTarget. rewrite Ht0, Hrec, Hi, Hu. simpl.
    destruct (Z.leb_spec t0 now); [| lia].
    destruct (Z.eqb_spec n 0); [lia |]. simpl.
    rewrite getIntervalMilliseconds_Num by lia. simpl.
    destruct (Z.ltb_spec 0 (n * unitMs u)); [| lia]. exact Hloop. }
  assert (Hsub : fsub (t0 + k * (n * unitMs u)) now = t0 + k * (n * unitMs u) - now).
  { apply roundDouble_exact. unfold MAX_SAFE_INTEGER in Hsafe. lia. }
  exists k. repeat split; try done.
  apply scheduleNotification_armed; [done | |].
  - rewrite (computeDelay_exact tz now targetNow r tod Hm Htod
               (todayOccurrence_truthy _ _ _ _ Ht0)).
    rewrite Htarget. simpl. by rewrite Hsub.
  - simpl. apply Z.leb_gt. lia.
Qed.

(** At 12:30 UTC, the 09:00 reminder repeating every 2 hours. *)
Lemma exact_recurring_next_occurrence_witness :
  exists k : Z,
    0 < k
    /\ exactTarget (fixedZone 0) 1793536200000 1793536200000
         (timeReminder Exact (Some "09:00"%string) (Some true) (Some (Num 2)) (Some Hours))
         "09:00"
       = Num (1793523600000 + k * (2 * unitMs Hours))
    /\ 1793536200000 < 1793523600000 + k * (2 * unitMs Hours)
    /\ (forall j : Z,
          1793536200000 < 1793523600000 + j * (2 * unitMs Hours) -> k <= j)
    /\ scheduleNotification (fixedZone 0) 1793536200000 1793536200000
         (timeReminder Exact (Some "09:00"%string) (Some true) (Some (Num 2)) (Some Hours))
         initialWorld
       = armed (timeReminder Exact (Some "09:00"%string) (Some true) (Some (Num 2)) (Some Hours))
               (Num (1793523600000 + k * (2 * unitMs Hours) - 1793536200000))
               initialWorld.
Proof.
  apply (exact_recurring_next_occurrence (fixedZone 0) 1793536200000 1793536200000
           (timeReminder Exact (Some "09:00"%string) (Some true) (Some (Num 2)) (Some Hours))
           initialWorld "09:00" 1793523600000 2 Hours);
    [reflexivity | reflexivity | reflexivity | reflexivity | reflexivity | lia
    | reflexivity | vm_compute; reflexivity | lia
    | vm_compute; discriminate | vm_compute; discriminate].
Defined.

(** C1, as stated, fails where the next occurrence is not a valid date:
    at 12:30 UTC, for the 09:00 reminder repeating every 100,000,001
    days, today's occurrence has passed, the first turn of the loop sets
    the target beyond the range of [Date], the target is [NaN], and the
    timeout is armed with the delay [NaN]. *)
Lemma exact_recurring_target_invalid :
  le (todayOccurrence (fixedZone 0) 1793536200000 "09:00") (Num 1793536200000) = true
  /\ exactTarget (fixedZone 0) 1793536200000 1793536200000
       (timeReminder Exact (Some "09:00"%string) (Some true)
          (Some (Num 100000001)) (Some Days))
       "09:00"
     = NaN
  /\ scheduleNotification (fixedZone 0) 1793536200000 1793536200000
       (timeReminder Exact (Some "09:00"%string) (Some true)
          (Some (Num 100000001)) (Some Days))
       initialWorld
     = armed (timeReminder Exact (Some "09:00"%string) (Some true)
                (Some (Num 100000001)) (Some Days))
             NaN initialWorld.
Proof. repeat split; vm_compute; reflexivity. Qed.

(** The reminder of every 10 minutes. *)
Lemma interval_mode_delay_witness :
  scheduleNotification (fixedZone 19800000) 1793504100000 1793504100000
    (timeReminder Interval None (Some true) (Some (Num 10)) (Some Minutes)) initialWorld
  = armed (timeReminder Interval None (Some true) (Some (Num 10)) (Some Minutes))
          (Num (10 * unitMs Minutes)) initialWorld
  /\ unitMs Minutes = 60000 /\ unitMs Hours = 3600000 /\ unitMs Days = 86400000.
Proof.
  apply (interval_mode_delay (fixedZone 19800000) 1793504100000 1793504100000
           (timeReminder Interval None (Some true) (Some (Num 10)) (Some Minutes))
           initialWorld 10 Minutes);
    [reflexivity | reflexivity | reflexivity | lia | reflexivity
    | vm_compute; discriminate].
Defined.

(** A recurring Exact reminder without time of day. *)
Lemma configuration_error_is_noop_witness :
  let w' := scheduleNotification (fixedZone 0) 1793536200000 1793536200000
              (timeReminder Exact None (Some true) (Some (Num 1)) (Some Days))
              initialWorld in
  w' = cancelNotification
         (id (timeReminder Exact None (Some true) (Some (Num 1)) (Some Days)))
         initialWorld
  /\ scheduledNotifications w'
       !! id (timeReminder Exact None (Some true) (Some (Num 1)) (Some Days)) = None
  /\ timeouts w' ⊆ timeouts initialWorld
  /\ nextTimeoutId w' = nextTimeoutId initialWorld.
Proof.
  apply (configuration_error_is_noop (fixedZone 0) 1793536200000 1793536200000
           (timeReminder Exact None (Some true) (Some (Num 1)) (Some Days))
           initialWorld);
    [reflexivity | right; split; reflexivity].
Defined.

(* ===================================================================== *)
(** ** The time scheduler: Exact mode, one-shot *)
(* ===================================================================== *)

Section ExactOnce.











End ExactOnce.




(* ===================================================================== *)
(** ** The time scheduler: one pending timeout per reminder *)
(* ===================================================================== *)

Section OneTimerPerReminder.

Variable tz : TimeZone.

Lemma consistent_initialWorld : consistent initialWorld.
Proof.
  split; simpl.
  - intros h t H. by rewrite lookup_empty in H.
  - intros i h H. by rewrite lookup_empty in H.
  - intros h [t H]. by rewrite lookup_empty in H.
Qed.

Lemma consistent_cancelNotification i w :
  consistent w -> consistent (cancelNotification i w).
Proof.
  intros [Hrec Hpend Hgiven]. unfold cancelNotification.
  destruct (scheduledNotifications w !! i) as [h0|] eqn:Hi; [| by split].
  split; simpl.
  - intros h t Ht. apply lookup_delete_Some in Ht as [Hne Ht].
    pose proof (Hrec h t Ht) as Hh.
    rewrite lookup_delete_ne; [done |]. intros Heq. congruence.
  - intros j h Hj. apply lookup_delete_Some in Hj as [Hne Hj].
    destruct (Hpend j h Hj) as (t & Ht & Hid).
    exists t. split; [| done]. rewrite lookup_delete_ne; [done |].
    intros Heq. destruct (Hpend i h0 Hi) as (t' & Ht' & Hid'). congruence.
  - intros h [t Ht]. apply lookup_delete_Some in Ht as [_ Ht]. eauto.
Qed.

(** After [cancelNotification(id)] no pending timeout belongs to [id]. *)
Lemma cancelNotification_clears i w h t :
  consistent w ->
  timeouts (cancelNotification i w) !! h = Some t ->
  id (callbackReminder t) <> i.
Proof.
  intros Hw Ht Hid.
  pose proof (timer_recorded _ (consistent_cancelNotification i w Hw) h t Ht) as H.
  rewrite Hid, cancelNotification_lookup_eq in H. done.
Qed.

Lemma consistent_armed r d w : consistent w -> consistent (armed r d w).
Proof.
  intros Hw.
  pose proof (consistent_cancelNotification (id r) w Hw) as [Hrec Hpend Hgiven].
  rewrite cancelNotification_nextTimeoutId in Hgiven.
  unfold armed. split; simpl.
  - intros h t Ht. apply lookup_insert_Some in Ht as [[<- <-] | [Hne Ht]].
    + simpl. apply lookup_insert_eq.
    + rewrite lookup_insert_ne; [by apply Hrec |].
      intros Hid. by apply (cancelNotification_clears (id r) w h t Hw Ht).
  - intros j h Hj. apply lookup_insert_Some in Hj as [[<- <-] | [Hne Hj]].
    + eexists. split; [apply lookup_insert_eq | done].
    + destruct (Hpend j h Hj) as (t & Ht & Hid). exists t. split; [| done].
      rewrite lookup_insert_ne; [done |].
      assert (h < nextTimeoutId w) by eauto. lia.
  - intros h [t Ht]. apply lookup_insert_Some in Ht as [[<- <-] | [Hne Ht]]; [lia |].
    assert (h < nextTimeoutId w) by eauto. lia.
Qed.

(** [scheduleNotification] either stops after its [cancelNotification]
    or arms one timeout. *)
Lemma scheduleNotification_cases now targetNow r w :
  scheduleNotification tz now targetNow r w = cancelNotification (id r) w
  \/ exists d, triggerType r = Time
       /\ computeDelay tz now targetNow r = Some d /\ le d (Num 0) = false
       /\ scheduleNotification tz now targetNow r w = armed r d w.
Proof.
  destruct (triggerType r) eqn:Ht; [| left; unfold scheduleNotification; by rewrite Ht].
  destruct (computeDelay tz now targetNow r) as [d|] eqn:Hd.
  - destruct (le d (Num 0)) eqn:Hle.
    + left. apply scheduleNotification_returns; eauto.
    + right. exists d. repeat split; try done.
      by apply scheduleNotification_armed.
  - left. apply scheduleNotification_returns; eauto.
Qed.

Lemma consistent_scheduleNotification now targetNow r w :
  consistent w -> consistent (scheduleNotification tz now targetNow r w).
Proof.
  intros Hw.
  destruct (scheduleNotification_cases now targetNow r w) as [-> | (d & _ & _ & _ & ->)].
  - by apply consistent_cancelNotification.
  - by apply consistent_armed.
Qed.

(** Once the window has dropped the firing timeout [h] of reminder
    [r], cancelling [id r] gives what it gives before the drop. *)
Lemma cancelNotification_after_drop w h t :
  consistent w ->
  timeouts w !! h = Some t ->
  cancelNotification (id (callbackReminder t))
    {| scheduledNotifications := scheduledNotifications w;
       timeouts := delete h (timeouts w);
       nextTimeoutId := nextTimeoutId w |}
  = cancelNotification (id (callbackReminder t)) w.
Proof.
  intros Hw Ht. unfold cancelNotification. simpl.
  rewrite (timer_recorded w Hw h t Ht). f_equal.
  apply map_eq. intros k. destruct (decide (k = h)) as [-> | Hne].
  - by rewrite !lookup_delete_eq.
  - by rewrite !lookup_delete_ne.
Qed.

Lemma consistent_fireTimeout now targetNow h w :
  consistent w -> consistent (snd (fireTimeout tz now targetNow h w)).
Proof.
  intros Hw. unfold fireTimeout.
  destruct (timeouts w !! h) as [t|] eqn:Ht; [| done]. simpl.
  pose proof (cancelNotification_after_drop w h t Hw Ht) as Hdrop.
  destruct (truthy_bool (isRecurring (callbackReminder t))).
  - set (w1 := {| scheduledNotifications := scheduledNotifications w;
                  timeouts := delete h (timeouts w);
                  nextTimeoutId := nextTimeoutId w |}) in *.
    destruct (scheduleNotification_cases now targetNow (callbackReminder t) w1)
      as [-> | (d & _ & _ & _ & ->)].
    + rewrite Hdrop. by apply consistent_cancelNotification.
    + unfold armed. rewrite Hdrop.
      exact (consistent_armed (callbackReminder t) d w Hw).
  - replace {| scheduledNotifications := delete (id (callbackReminder t)) (scheduledNotifications w);
               timeouts := delete h (timeouts w);
               nextTimeoutId := nextTimeoutId w |}
      with (cancelNotification (id (callbackReminder t)) w).
    + by apply consistent_cancelNotification.
    + unfold cancelNotification. by rewrite (timer_recorded w Hw h t Ht).
Qed.

Lemma consistent_step w e : consistent w -> consistent (step tz w e).
Proof.
  intros Hw. destruct e; simpl.
  - by apply consistent_scheduleNotification.
  - by apply consistent_cancelNotification.
  - by apply consistent_fireTimeout.
Qed.

Lemma consistent_run es w : consistent w -> consistent (run tz es w).
Proof.
  revert w. induction es as [| e es IH]; intros w Hw; [done |].
  simpl. apply IH. by apply consistent_step.
Qed.

(** In a consistent world the pending timeouts of an id are the one
    recorded for it, if any. *)
Lemma liveTimers_recorded i w h :
  consistent w ->
  scheduledNotifications w !! i = Some h ->
  exists t, timeouts w !! h = Some t /\ liveTimers i w = {[h := t]}.
Proof.
  intros Hw Hi. destruct (record_pending w Hw i h Hi) as (t & Ht & Hid).
  exists t. split; [done |]. unfold liveTimers.
  apply map_eq. intros k. apply option_eq. intros v.
  rewrite map_lookup_filter_Some, lookup_singleton_Some. simpl. split.
  - intros [Hk Hv]. pose proof (timer_recorded w Hw k v Hk) as H.
    rewrite Hv, Hi in H. injection H as ->. split; congruence.
  - intros [<- <-]. done.
Qed.

Lemma liveTimers_unrecorded i w :
  consistent w ->
  scheduledNotifications w !! i = None ->
  liveTimers i w = ∅.
Proof.
  intros Hw Hi. unfold liveTimers. apply map_empty. intros k.
  apply map_lookup_filter_None. right. intros t Ht Hid. simpl in Hid.
  pose proof (timer_recorded w Hw k t Ht) as H. congruence.
Qed.

End OneTimerPerReminder.

(** C7.  In every state the scheduler reaches from its initial one by
    calls of [scheduleNotification] and [cancelNotification] and by
    timeouts firing: each reminder id has no pending timeout or exactly
    one; [scheduleNotification] removes the timeout that was pending for
    the id; two calls in succession for one reminder, the second of which
    arms, leave exactly the timeout of the second call pending for its
    id; [cancelNotification] for an id without pending timeout changes
    nothing, and cancelling twice is cancelling once. *)
Theorem one_live_timer_per_reminder (tz : TimeZone) (es : list Event) :
  let w := run tz es initialWorld in
  (forall i, liveTimers i w = ∅ \/ exists h t, liveTimers i w = {[h := t]})
  /\ (forall now targetNow r h,
        scheduledNotifications w !! id r = Some h ->
        is_Some (timeouts w !! h)
        /\ timeouts (scheduleNotification tz now targetNow r w) !! h = None)
  /\ (forall now1 targetNow1 now2 targetNow2 r d,
        triggerType r = Time ->
        computeDelay tz now2 targetNow2 r = Some d ->
        le d (Num 0) = false ->
        let w1 := scheduleNotification tz now1 targetNow1 r w in
        liveTimers (id r) (scheduleNotification tz now2 targetNow2 r w1)
        = {[nextTimeoutId w1 := {| callbackReminder := r; delay := d |}]})
  /\ (forall i, liveTimers i w = ∅ -> cancelNotification i w = w)
  /\ (forall i, cancelNotification i (cancelNotification i w) = cancelNotification i w).
Proof.
  intros w.
  assert (Hw : consistent w) by apply consistent_run, consistent_initialWorld.
  split; [| split; [| split; [| split]]].
  - intros i. destruct (scheduledNotifications w !! i) as [h|] eqn:Hi.
    + right. destruct (liveTimers_recorded i w h Hw Hi) as (t & _ & Hlive). eauto.
    + left. by apply liveTimers_unrecorded.
  - intros now targetNow r h Hh.
    destruct (record_pending w Hw _ h Hh) as (t & Ht & _).
    split; [eauto |].
    assert (Hcancel : timeouts (cancelNotification (id r) w) !! h = None).
    { unfold cancelNotification. rewrite Hh. simpl. apply lookup_delete_eq. }
    destruct (scheduleNotification_cases tz now targetNow r w)
      as [-> | (d & _ & _ & _ & ->)]; [done |].
    unfold armed. simpl. rewrite lookup_insert_ne; [done |].
    assert (h < nextTimeoutId w) by (apply (handle_given w Hw); eauto). lia.
  - intros now1 targetNow1 now2 targetNow2 r d Ht Hd Hle w1.
    assert (Hw1 : consistent w1) by by apply consistent_scheduleNotification.
    rewrite (scheduleNotification_armed tz now2 targetNow2 r d w1 Ht Hd Hle).
    pose proof (consistent_armed r d w1 Hw1) as Hw2.
    destruct (liveTimers_recorded (id r) (armed r d w1) (nextTimeoutId w1) Hw2)
      as (t & Hlook & Hlive).
    { unfold armed. simpl. apply lookup_insert_eq. }
    rewrite Hlive. unfold armed in Hlook. simpl in Hlook.
    rewrite lookup_insert_eq in Hlook. by injection Hlook as <-.
  - intros i Hlive. unfold cancelNotification.
    destruct (scheduledNotifications w !! i) as [h|] eqn:Hi; [| done].
    destruct (liveTimers_recorded i w h Hw Hi) as (t & _ & Hsingle).
    rewrite Hsingle in Hlive.
    apply (f_equal (fun m => m !! h)) in Hlive.
    by rewrite lookup_singleton_eq, lookup_empty in Hlive.
  - intros i. unfold cancelNotification at 1.
    by rewrite cancelNotification_lookup_eq.
Qed.

(* ===================================================================== *)
(** ** Geo math *)
(* ===================================================================== *)

Section GeoMath.

Import LocationService.
Local Open Scope R_scope.

Lemma haversine_self lat1 lon1 : haversine lat1 lon1 lat1 lon1 = 0.
Proof.
  unfold haversine.
  replace ((lat1 - lat1) * PI / 180 / 2) with 0 by field.
  replace ((lon1 - lon1) * PI / 180 / 2) with 0 by field.
  rewrite sin_0. ring.
Qed.

(** The product of the cosines is at least minus the squared sine of
    half the difference of the latitudes. *)
Lemma cos_cos_lower x y :
  - (sin ((y - x) / 2) * sin ((y - x) / 2)) <= cos x * cos y.
Proof.
  pose proof (cos_minus y x) as Hminus.
  pose proof (cos_plus y x) as Hplus.
  pose proof (COS_bound (y + x)) as [Hlow _].
  pose proof (cos_2a_sin ((y - x) / 2)) as Hdouble.
  replace (2 * ((y - x) / 2)) with (y - x) in Hdouble by field.
  lra.
Qed.

Lemma haversine_nonneg lat1 lon1 lat2 lon2 : 0 <= haversine lat1 lon1 lat2 lon2.
Proof.
  unfold haversine.
  set (s := sin ((lat2 - lat1) * PI / 180 / 2)).
  set (l := sin ((lon2 - lon1) * PI / 180 / 2)).
  pose proof (cos_cos_lower (lat1 * PI / 180) (lat2 * PI / 180)) as Hcc.
  replace ((lat2 * PI / 180 - lat1 * PI / 180) / 2)
    with ((lat2 - lat1) * PI / 180 / 2) in Hcc by field.
  fold s in Hcc.
  pose proof (SIN_bound ((lon2 - lon1) * PI / 180 / 2)) as [Hl1 Hl2]. fold l in Hl1, Hl2.
  set (c := cos (lat1 * PI / 180) * cos (lat2 * PI / 180)) in *.
  assert (0 <= l * l <= 1) as [Hll0 Hll1] by nra.
  assert (0 <= s * s) by nra.
  replace (s * s + c * l * l) with (s * s + c * (l * l)) by ring.
  nra.
Qed.

(** [Math.atan2] on two non-negative arguments is zero exactly when the
    first is. *)
Lemma atan2_zero y x : 0 <= y -> 0 <= x -> (atan2 y x = 0 <-> y = 0).
Proof.
  intros Hy Hx. unfold atan2.
  destruct (Rlt_dec 0 x) as [Hpos | _].
  - split.
    + intros H. apply atan_eq0 in H.
      apply (f_equal (fun v => v * x)) in H.
      unfold Rdiv in H. rewrite Rmult_assoc, Rinv_l, Rmult_1_r, Rmult_0_l in H; lra.
    + intros ->. unfold Rdiv. by rewrite Rmult_0_l, atan_0.
  - destruct (Rlt_dec x 0); [lra |].
    destruct (Rlt_dec 0 y); [pose proof PI_RGT_0; split; lra |].
    destruct (Rlt_dec y 0); [lra |]. split; lra.
Qed.

Lemma calculateDistance_zero lat1 lon1 lat2 lon2 :
  calculateDistance lat1 lon1 lat2 lon2 = 0 <-> haversine lat1 lon1 lat2 lon2 = 0.
Proof.
  unfold calculateDistance, earthRadius.
  pose proof (haversine_nonneg lat1 lon1 lat2 lon2) as Ha.
  set (a := haversine lat1 lon1 lat2 lon2) in *.
  pose proof (atan2_zero (sqrt a) (sqrt (1 - a)) (sqrt_pos _) (sqrt_pos _)) as Hz.
  split.
  - intros H. apply sqrt_eq_0; [done |]. apply Hz. lra.
  - intros H0. rewrite H0 in *. rewrite sqrt_0 in *.
    rewrite (proj2 Hz eq_refl). ring.
Qed.

(** The two places of the scenarios, seen from (0, 0): the fence around
    (0, 0) holds it, the fence a quarter of the equator away does not. *)
Lemma isInside_origin trig :
  isInside origin {| address := "Null Island"; lat := 0; lng := 0;
                     radius := 100; triggerOn := trig |} = true.
Proof.
  unfold isInside, Rleb. simpl.
  destruct (Rle_dec _ _) as [_ | Hn]; [done |]. exfalso. apply Hn.
  rewrite (proj2 (calculateDistance_zero 0 0 0 0) (haversine_self 0 0)). lra.
Qed.

Lemma isInside_quarter_turn trig :
  isInside origin {| address := "Quarter turn"; lat := 0; lng := 90;
                     radius := 100; triggerOn := trig |} = false.
Proof.
  unfold isInside, Rleb. simpl.
  destruct (Rle_dec _ _) as [Hle | _]; [| done]. exfalso. revert Hle.
  assert (Ha : haversine 0 0 0 90 = 1 / 2).
  { unfold haversine.
    replace ((0 - 0) * PI / 180 / 2) with 0 by field.
    replace ((90 - 0) * PI / 180 / 2) with (PI / 4) by field.
    replace (0 * PI / 180) with 0 by field.
    rewrite sin_0, cos_0, sin_PI4.
    pose proof (sqrt_sqrt 2 ltac:(lra)) as H2.
    pose proof (sqrt_lt_R0 2 ltac:(lra)) as Hpos.
    field_simplify; [| lra]. rewrite <- Rsqr_pow2. unfold Rsqr. rewrite H2. lra. }
  unfold calculateDistance, earthRadius, atan2. rewrite Ha.
  replace (1 - 1 / 2) with (1 / 2) by field.
  pose proof (sqrt_lt_R0 (1 / 2) ltac:(lra)) as Hs.
  destruct (Rlt_dec 0 (sqrt (1 / 2))) as [_ | H]; [| lra].
  replace (sqrt (1 / 2) / sqrt (1 / 2)) with 1 by (field; lra).
  rewrite atan_1. pose proof PI2_3_2. lra.
Qed.

End GeoMath.

(* ===================================================================== *)
(** ** The geofence tracker: transitions *)
(* ===================================================================== *)

Section Geofence.

Import LocationService.

Lemma checkReminder_fires pos fired states r :
  checkReminder pos (fired, states) r
  = (fired ++ (if transitionFires pos states r then [r] else []),
     match location r with
     | Some loc => <[id r := isInside pos loc]> states
     | None => states
     end).
Proof.
  unfold checkReminder, transitionFires.
  destruct (location r) as [loc|]; [| by rewrite app_nil_r].
  destruct (states !! id r) as [was|]; simpl.
  - destruct was, (isInside pos loc), (triggerOn loc); simpl; by rewrite ?app_nil_r.
  - rewrite Bool.eqb_reflx. simpl. by rewrite app_nil_r.
Qed.

(** A later reminder with another id reads the same stored state. *)
Lemma transitionFires_insert pos states i b r :
  id r <> i ->
  transitionFires pos (<[i := b]> states) r = transitionFires pos states r.
Proof.
  intros Hne. unfold transitionFires.
  destruct (location r); [| done]. by rewrite lookup_insert_ne.
Qed.

Lemma checkReminders_fold pos rs :
  forall fired states,
    List.NoDup (map id rs) ->
    fold_left (checkReminder pos) rs (fired, states)
    = (fired ++ List.filter (transitionFires pos states) rs,
       initStates pos rs states).
Proof.
  induction rs as [| r rs IH]; intros fired states Hnd.
  - simpl. by rewrite app_nil_r.
  - simpl in Hnd. apply NoDup_cons_iff in Hnd as [Hnotin Hnd].
    cbn [fold_left]. rewrite checkReminder_fires.
    cbn [initStates fold_left List.filter].
    destruct (location r) as [loc|] eqn:Hloc.
    + rewrite IH by done. unfold initStates. f_equal.
      rewrite <- app_assoc. f_equal.
      replace (List.filter (transitionFires pos (<[id r := isInside pos loc]> states)) rs)
        with (List.filter (transitionFires pos states) rs).
      * by destruct (transitionFires pos states r).
      * apply filter_ext_in. intros r' Hin. symmetry.
        apply transitionFires_insert. intros Heq. apply Hnotin.
        rewrite <- Heq. by apply in_map.
    + rewrite IH by done. unfold initStates. f_equal.
      assert (transitionFires pos states r = false) as ->
          by (unfold transitionFires; by rewrite Hloc).
      by rewrite app_nil_r.
Qed.

Lemma initStates_other pos rs :
  forall states i, ~ In i (map id rs) -> initStates pos rs states !! i = states !! i.
Proof.
  unfold initStates.
  induction rs as [| r rs IH]; intros states i Hnotin; [done |].
  simpl in *. rewrite IH by tauto.
  destruct (location r); [| done]. rewrite lookup_insert_ne; [done | tauto].
Qed.

Lemma initStates_lookup pos rs :
  forall states r loc,
    List.NoDup (map id rs) -> In r rs -> location r = Some loc ->
    initStates pos rs states !! id r = Some (isInside pos loc).
Proof.
  unfold initStates.
  induction rs as [| r0 rs IH]; intros states r loc Hnd Hin Hloc; [done |].
  simpl in Hnd. apply NoDup_cons_iff in Hnd as [Hnotin Hnd].
  destruct Hin as [-> | Hin]; simpl.
  - rewrite Hloc. pose proof (initStates_other pos rs) as H. unfold initStates in H.
    rewrite H by done. apply lookup_insert_eq.
  - by apply IH.
Qed.

Lemma transitionFires_iff pos states r loc :
  location r = Some loc ->
  transitionFires pos states r = true
  <-> exists was, states !! id r = Some was
        /\ was <> isInside pos loc
        /\ (if isInside pos loc then triggerOn loc = OnEnter
            else triggerOn loc = OnLeave).
Proof.
  intros Hloc. unfold transitionFires. rewrite Hloc.
  destruct (states !! id r) as [was|]; [| split; [done | by intros (? & ? & _)]].
  split.
  - intros H. exists was. split; [done |].
    destruct was, (isInside pos loc), (triggerOn loc); simpl in *; done.
  - intros (was' & Heq & Hne & Hdir). injection Heq as <-.
    destruct was, (isInside pos loc), (triggerOn loc); simpl in *; done.
Qed.

End Geofence.

(** C5.  At a reminder's turn in the processing of a sample, a trigger is
    fired exactly when a stored [insideRadius] exists for its id, differs
    from the sample's [isInside], and the direction of the change is the
    reminder's [triggerOn] (entering for [OnEnter], leaving for
    [OnLeave]); fired or not, the stored state becomes [isInside].  For a
    whole sample over reminders with distinct ids: the triggers fired are,
    in order, the reminders that meet this rule against the states stored
    before the sample; each located reminder's stored state is its
    [isInside] afterwards; so the next sample fires for a reminder exactly
    when its [isInside] differs from this sample's in the reminder's
    direction: a change against the direction is not fired later, and the
    opposite change is seen. *)
Theorem geofence_transition_rule (pos : LocationService.Position) :
  (forall fired states r loc,
     location r = Some loc ->
     LocationService.checkReminder pos (fired, states) r
     = (fired ++ (if transitionFires pos states r then [r] else []),
        <[id r := LocationService.isInside pos loc]> states)
     /\ (transitionFires pos states r = true
         <-> exists was, states !! id r = Some was
               /\ was <> LocationService.isInside pos loc
               /\ (if LocationService.isInside pos loc
                   then triggerOn loc = OnEnter else triggerOn loc = OnLeave)))
  /\ (forall rs states,
        List.NoDup (map id rs) ->
        fst (LocationService.checkReminders pos rs states)
        = List.filter (transitionFires pos states) rs
        /\ forall r loc, In r rs -> location r = Some loc ->
             (In r (fst (LocationService.checkReminders pos rs states))
              <-> exists was, states !! id r = Some was
                    /\ was <> LocationService.isInside pos loc
                    /\ (if LocationService.isInside pos loc
                        then triggerOn loc = OnEnter else triggerOn loc = OnLeave))
             /\ snd (LocationService.checkReminders pos rs states) !! id r
                = Some (LocationService.isInside pos loc)
             /\ forall pos',
                  In r (fst (LocationService.checkReminders pos' rs
                               (snd (LocationService.checkReminders pos rs states))))
                  <-> LocationService.isInside pos loc <> LocationService.isInside pos' loc
                      /\ (if LocationService.isInside pos' loc
                          then triggerOn loc = OnEnter else triggerOn loc = OnLeave)).
Proof.
  split.
  { intros fired states r loc Hloc. rewrite checkReminder_fires, Hloc.
    split; [done | by apply transitionFires_iff]. }
  intros rs states Hnd.
  assert (Hrun : forall p st,
             LocationService.checkReminders p rs st
             = (List.filter (transitionFires p st) rs, LocationService.initStates p rs st)).
  { intros p st. unfold LocationService.checkReminders.
    by rewrite checkReminders_fold. }
  rewrite !Hrun. simpl. split; [done |].
  intros r loc Hin Hloc.
  pose proof (initStates_lookup pos rs states r loc Hnd Hin Hloc) as Hstored.
  split; [| split; [done |]].
  - rewrite filter_In, (transitionFires_iff pos states r loc Hloc). tauto.
  - intros pos'. rewrite Hrun. simpl.
    rewrite filter_In, (transitionFires_iff pos' _ r loc Hloc), Hstored. split.
    + intros (_ & was & Heq & Hne & Hdir). injection Heq as <-. done.
    + intros [Hne Hdir]. split; [done |]. eauto.
Qed.

(** The reminder around (0, 0), stored as outside, and a sample at its
    centre. *)
Lemma geofence_transition_rule_witness :
  fst (LocationService.checkReminders origin [originReminder OnEnter]
         {[id (originReminder OnEnter) := false]})
  = List.filter (transitionFires origin {[id (originReminder OnEnter) := false]})
      [originReminder OnEnter]
  /\ forall r loc, In r [originReminder OnEnter] -> location r = Some loc ->
       (In r (fst (LocationService.checkReminders origin [originReminder OnEnter]
                     {[id (originReminder OnEnter) := false]}))
        <-> exists was,
              ({[id (originReminder OnEnter) := false]} : gmap string bool) !! id r = Some was
              /\ was <> LocationService.isInside origin loc
              /\ (if LocationService.isInside origin loc
                  then triggerOn loc = OnEnter else triggerOn loc = OnLeave))
       /\ snd (LocationService.checkReminders origin [originReminder OnEnter]
                 {[id (originReminder OnEnter) := false]}) !! id r
          = Some (LocationService.isInside origin loc)
       /\ forall pos',
            In r (fst (LocationService.checkReminders pos' [originReminder OnEnter]
                         (snd (LocationService.checkReminders origin [originReminder OnEnter]
                                 {[id (originReminder OnEnter) := false]}))))
            <-> LocationService.isInside origin loc <> LocationService.isInside pos' loc
                /\ (if LocationService.isInside pos' loc
                    then triggerOn loc = OnEnter else triggerOn loc = OnLeave).
Proof.
  apply (proj2 (geofence_transition_rule origin) [originReminder OnEnter]
           {[id (originReminder OnEnter) := false]}).
  simpl. apply List.NoDup_cons; [simpl; tauto | apply List.NoDup_nil].
Defined.

(* ===================================================================== *)
(** ** The geofence tracker: start, baseline and errors *)
(* ===================================================================== *)

Section Tracking.

Import LocationService.

Lemma stopWatchingLocation_nextWatchId t :
  nextWatchId (stopWatchingLocation t) = nextWatchId t.
Proof. unfold stopWatchingLocation. by destruct (watchId t). Qed.

Lemma startWatchingLocation_watch rs t :
  let t' := startWatchingLocation rs t in
  locationStates t' = ∅
  /\ watchId t' = Some (nextWatchId t)
  /\ watches t' !! nextWatchId t = Some rs
  /\ positionRequests t' = positionRequests t ++ [rs].
Proof.
  unfold startWatchingLocation. simpl.
  destruct (watchId t) eqn:Hw; simpl; rewrite ?stopWatchingLocation_nextWatchId;
    repeat split; try apply lookup_insert_eq.
  unfold stopWatchingLocation. by rewrite Hw.
Qed.

Lemma step_WatchPosition t w pos rs :
  watches t !! w = Some rs ->
  List.NoDup (map id rs) ->
  step t (WatchPosition w pos)
  = (map Trigger (List.filter (transitionFires pos (locationStates t)) rs),
     withStates (initStates pos rs (locationStates t)) t).
Proof.
  intros Hw Hnd. unfold step. rewrite Hw. unfold checkReminders.
  by rewrite checkReminders_fold.
Qed.

Lemma transitionFires_no_state pos r :
  transitionFires pos ∅ r = false.
Proof. unfold transitionFires. destruct (location r); [| done]. by rewrite lookup_empty. Qed.

Lemma filter_none {A} (f : A -> bool) (l : list A) :
  (forall x, f x = false) -> List.filter f l = [].
Proof. intros H. induction l as [| x l IH]; [done |]. simpl. by rewrite H. Qed.

Lemma Trigger_in_map r l : In (Trigger r) (map Trigger l) <-> In r l.
Proof.
  rewrite in_map_iff. split.
  - intros (r' & Heq & Hin). by injection Heq as ->.
  - intros Hin. eauto.
Qed.

(** Only a watch sample calls [onTrigger]. *)
Lemma step_other_no_trigger t e r :
  (forall w pos, e <> WatchPosition w pos) ->
  ~ In (Trigger r) (fst (step t e)).
Proof.
  intros He. destruct e as [rs | | k pos | k err | w pos | w err]; simpl.
  - tauto.
  - tauto.
  - destruct (positionRequests t !! k); simpl; tauto.
  - destruct (positionRequests t !! k); simpl; tauto.
  - by destruct (He w pos).
  - destruct (watches t !! w); simpl; [| tauto].
    intros [H | [H | []]]; discriminate.
Qed.

End Tracking.

(** What the steps of the tracker do to the stored states and the
    triggers.  [startWatchingLocation] leaves no stored state and a live
    watch.  The first sample processed then (and any sample, for a
    reminder without stored state) fires nothing and stores the sample's
    own [isInside].  In any state, a trigger is fired only by a watch
    sample, for a watched reminder whose stored [insideRadius] exists and
    is the opposite of the sample's [isInside]; the answer to a one-shot
    read fires nothing and stores [isInside] for every reminder of the
    start that requested it. *)
Lemma tracker_steps_and_triggers (t0 : LocationService.Tracker)
    (rs : list Reminder) :
  List.NoDup (map id rs) ->
  let t := LocationService.startWatchingLocation rs t0 in
  let w := LocationService.nextWatchId t0 in
  (LocationService.locationStates t = ∅
   /\ LocationService.watchId t = Some w
   /\ LocationService.watches t !! w = Some rs)
  /\ (forall pos,
        fst (LocationService.step t (LocationService.WatchPosition w pos)) = []
        /\ forall r loc, In r rs -> location r = Some loc ->
             LocationService.locationStates
               (snd (LocationService.step t (LocationService.WatchPosition w pos))) !! id r
             = Some (LocationService.isInside pos loc))
  /\ (forall t' w' pos rs' r,
        LocationService.watches t' !! w' = Some rs' ->
        List.NoDup (map id rs') ->
        In (LocationService.Trigger r)
           (fst (LocationService.step t' (LocationService.WatchPosition w' pos))) ->
        In r rs'
        /\ exists loc, location r = Some loc
             /\ LocationService.locationStates t' !! id r
                = Some (negb (LocationService.isInside pos loc)))
  /\ (forall t' w' pos rs' r loc,
        LocationService.watches t' !! w' = Some rs' ->
        List.NoDup (map id rs') ->
        In r rs' -> location r = Some loc ->
        LocationService.locationStates t' !! id r = None ->
        ~ In (LocationService.Trigger r)
             (fst (LocationService.step t' (LocationService.WatchPosition w' pos)))
        /\ LocationService.locationStates
             (snd (LocationService.step t' (LocationService.WatchPosition w' pos))) !! id r
           = Some (LocationService.isInside pos loc))
  /\ (forall t' e r,
        (forall w' pos, e <> LocationService.WatchPosition w' pos) ->
        ~ In (LocationService.Trigger r) (fst (LocationService.step t' e)))
  /\ (forall t' k pos rs' r loc,
        LocationService.positionRequests t' !! k = Some rs' ->
        List.NoDup (map id rs') ->
        In r rs' -> location r = Some loc ->
        LocationService.locationStates
          (snd (LocationService.step t' (LocationService.CurrentPosition k pos))) !! id r
        = Some (LocationService.isInside pos loc)).
Proof.
  intros Hnd t w.
  destruct (startWatchingLocation_watch rs t0) as (Hstates & Hid & Hwatch & _).
  fold t in Hstates, Hid, Hwatch. fold w in Hid, Hwatch.
  split; [done |]. split; [| split; [| split; [| split]]].
  - intros pos. rewrite (step_WatchPosition t w pos rs Hwatch Hnd). cbn [fst snd]. split.
    + rewrite Hstates, filter_none; [done |]. apply transitionFires_no_state.
    + intros r loc Hin Hloc. by apply initStates_lookup.
  - intros t' w' pos rs' r Hw' Hnd' Hfired.
    rewrite (step_WatchPosition t' w' pos rs' Hw' Hnd') in Hfired. simpl in Hfired.
    apply Trigger_in_map, filter_In in Hfired as [Hin Hfires].
    split; [done |]. unfold transitionFires in Hfires.
    destruct (location r) as [loc|]; [| done]. exists loc. split; [done |].
    destruct (LocationService.locationStates t' !! id r) as [was|]; [| done].
    f_equal. destruct was, (LocationService.isInside pos loc); simpl in *; done.
  - intros t' w' pos rs' r loc Hw' Hnd' Hin Hloc Hnone.
    rewrite (step_WatchPosition t' w' pos rs' Hw' Hnd'). simpl. split.
    + rewrite Trigger_in_map, filter_In. intros [_ Hfires].
      unfold transitionFires in Hfires. by rewrite Hloc, Hnone in Hfires.
    + by apply initStates_lookup.
  - intros t' e r. apply step_other_no_trigger.
  - intros t' k pos rs' r loc Hk Hnd' Hin Hloc. simpl. rewrite Hk. simpl.
    by apply initStates_lookup.
Qed.

(** C6 at the failing input.  [startWatchingLocation] is called again
    (the list has changed: the reminder [r0] of the first call is [r] in
    the second, under the same id, with another fence) while the one-shot
    read of the first call is unanswered.  The second call clears the
    stored states, but the first read is still pending; its answer, at the
    position [pos], stores for that id the [isInside] of the old fence.
    The first sample of the new watch, at the same position [pos], is
    compared with it: where the old fence and the new one disagree on
    [pos], it fires the reminder in the direction of the disagreement,
    with the device at rest: a trigger without any transition. *)
Theorem stale_read_fires_first_sample (t : LocationService.Tracker)
    (old new : list Reminder) (pos : LocationService.Position)
    (r0 r : Reminder) (loc0 loc : GeoLocation) :
  List.NoDup (map id old) -> List.NoDup (map id new) ->
  In r0 old -> location r0 = Some loc0 ->
  In r new -> location r = Some loc ->
  id r0 = id r ->
  LocationService.isInside pos loc0 = negb (LocationService.isInside pos loc) ->
  triggerOn loc = (if LocationService.isInside pos loc then OnEnter else OnLeave) ->
  let t1 := LocationService.startWatchingLocation old t in
  let t2 := LocationService.startWatchingLocation new t1 in
  let k := length (LocationService.positionRequests t) in
  let w := LocationService.nextWatchId t1 in
  let t3 := snd (LocationService.step t2 (LocationService.CurrentPosition k pos)) in
  LocationService.positionRequests t2 !! k = Some old
  /\ LocationService.locationStates t2 = ∅
  /\ LocationService.watches t2 !! w = Some new
  /\ fst (LocationService.step t2 (LocationService.CurrentPosition k pos)) = []
  /\ LocationService.locationStates t3 !! id r
     = Some (LocationService.isInside pos loc0)
  /\ In (LocationService.Trigger r)
        (fst (LocationService.step t3 (LocationService.WatchPosition w pos))).
Proof.
  intros Hnd0 Hnd Hin0 Hloc0 Hin Hloc Hid Hdiffer Hdir t1 t2 k w t3.
  destruct (startWatchingLocation_watch old t) as (_ & _ & _ & Hreq1).
  destruct (startWatchingLocation_watch new t1) as (Hstates & _ & Hwatch & Hreq2).
  fold t1 in Hreq1. fold t2 in Hstates, Hwatch, Hreq2. fold w in Hwatch.
  assert (Hk : LocationService.positionRequests t2 !! k = Some old).
  { rewrite Hreq2, Hreq1. apply lookup_app_l_Some.
    unfold k. by rewrite list_lookup_middle. }
  assert (Hstep : LocationService.step t2 (LocationService.CurrentPosition k pos)
                  = ([], LocationService.withStates
                           (LocationService.initStates pos old
                              (LocationService.locationStates t2))
                           (LocationService.dropRequest k t2))).
  { unfold LocationService.step. by rewrite Hk. }
  assert (Hstale : LocationService.locationStates t3 !! id r
                   = Some (LocationService.isInside pos loc0)).
  { unfold t3. rewrite Hstep, <- Hid.
    cbn [snd LocationService.withStates LocationService.locationStates].
    by apply initStates_lookup. }
  assert (Hwatch3 : LocationService.watches t3 !! w = Some new).
  { unfold t3. rewrite Hstep. exact Hwatch. }
  repeat split; try done.
  - by rewrite Hstep.
  - rewrite (step_WatchPosition t3 w pos new Hwatch3 Hnd). cbn [fst].
    apply Trigger_in_map, filter_In. split; [done |].
    unfold transitionFires. rewrite Hloc, Hstale, Hdiffer, Hdir.
    by destruct (LocationService.isInside pos loc).
Qed.

(** The reminder around (0, 0) is moved a quarter of the equator away
    while the first read is unanswered; the device stays at (0, 0). *)
Lemma stale_read_fires_first_sample_witness :
  let t1 := LocationService.startWatchingLocation [originReminder OnLeave]
              LocationService.initialTracker in
  let t2 := LocationService.startWatchingLocation [movedReminder OnLeave] t1 in
  let k := length (LocationService.positionRequests LocationService.initialTracker) in
  let w := LocationService.nextWatchId t1 in
  let t3 := snd (LocationService.step t2 (LocationService.CurrentPosition k origin)) in
  LocationService.positionRequests t2 !! k = Some [originReminder OnLeave]
  /\ LocationService.locationStates t2 = ∅
  /\ LocationService.watches t2 !! w = Some [movedReminder OnLeave]
  /\ fst (LocationService.step t2 (LocationService.CurrentPosition k origin)) = []
  /\ LocationService.locationStates t3 !! id (movedReminder OnLeave)
     = Some (LocationService.isInside origin
               {| address := "Null Island"; lat := 0; lng := 0;
                  radius := 100; triggerOn := OnLeave |})
  /\ In (LocationService.Trigger (movedReminder OnLeave))
        (fst (LocationService.step t3 (LocationService.WatchPosition w origin))).
Proof.
  apply (stale_read_fires_first_sample LocationService.initialTracker
           [originReminder OnLeave] [movedReminder OnLeave] origin
           (originReminder OnLeave) (movedReminder OnLeave)
           {| address := "Null Island"; lat := 0; lng := 0;
              radius := 100; triggerOn := OnLeave |}
           {| address := "Quarter turn"; lat := 0; lng := 90;
              radius := 100; triggerOn := OnLeave |}).
  - simpl. apply List.NoDup_cons; [simpl; tauto | apply List.NoDup_nil].
  - simpl. apply List.NoDup_cons; [simpl; tauto | apply List.NoDup_nil].
  - by left.
  - reflexivity.
  - by left.
  - reflexivity.
  - reflexivity.
  - by rewrite isInside_origin, isInside_quarter_turn.
  - by rewrite isInside_quarter_turn.
Defined.

(** C8 at the failing input.  The error answer to a [getCurrentPosition]
    request reaches no handler: no effect at all, and the watch, its id
    and the stored states stay as they were.  An error of the watch, for
    comparison, is logged and alerted, and [handleError] clears the
    watch, after which it delivers nothing. *)
Theorem one_shot_error_is_silent (t : LocationService.Tracker) (k : nat)
    (err : LocationService.PositionError) :
  (fst (LocationService.step t (LocationService.CurrentPositionError k err)) = []
   /\ LocationService.watchId
        (snd (LocationService.step t (LocationService.CurrentPositionError k err)))
      = LocationService.watchId t
   /\ LocationService.watches
        (snd (LocationService.step t (LocationService.CurrentPositionError k err)))
      = LocationService.watches t
   /\ LocationService.locationStates
        (snd (LocationService.step t (LocationService.CurrentPositionError k err)))
      = LocationService.locationStates t)
  /\ (forall w, LocationService.watchId t = Some w ->
        is_Some (LocationService.watches t !! w) ->
        let out := fst (LocationService.step t (LocationService.WatchError w err)) in
        let t' := snd (LocationService.step t (LocationService.WatchError w err)) in
        In (LocationService.ConsoleError err) out
        /\ (exists msg, In (LocationService.Alert msg) out)
        /\ LocationService.watchId t' = None
        /\ LocationService.watches t' !! w = None
        /\ forall pos, LocationService.step t' (LocationService.WatchPosition w pos) = ([], t')).
Proof.
  split.
  - simpl. destruct (LocationService.positionRequests t !! k); done.
  - intros w Hid [rs Hw]. simpl. rewrite Hw. simpl.
    unfold LocationService.stopWatchingLocation. rewrite Hid. simpl.
    rewrite lookup_delete_eq. repeat split; eauto.
Qed.

(** C8, the failing run: the watch is started and the one-shot read
    times out; nothing is reported and the watch stays live. *)
Lemma one_shot_timeout_leaves_watch_running :
  LocationService.run
    [LocationService.Start [originReminder OnEnter];
     LocationService.CurrentPositionError 0 LocationService.TIMEOUT]
    LocationService.initialTracker
  = ([], {| LocationService.watchId := Some 1;
            LocationService.locationStates := ∅;
            LocationService.watches := {[1 := [originReminder OnEnter]]};
            LocationService.positionRequests := [];
            LocationService.nextWatchId := 2 |}).
Proof. reflexivity. Qed.

(* ===================================================================== *)
(** ** Scenarios of the specification, run on the model *)
(* ===================================================================== *)

Section Scenarios.

Import LocationService.

(** Scheduled at [T], the 10-minute recurring reminder is armed for 600,000
    ms; when that timeout fires (at [T] + 10 min) it is shown and armed
    again for 600,000 ms, under a new handle. *)
Example interval_scenario_rearms :
  timeouts (NotificationService.run (fixedZone 0)
              [Schedule 1793536200000 1793536200000 tenMinutes] initialWorld)
  = {[1 := {| callbackReminder := tenMinutes; delay := Num 600000 |}]}
  /\ fireTimeout (fixedZone 0) 1793536800000 1793536800000 1
       (NotificationService.run (fixedZone 0)
          [Schedule 1793536200000 1793536200000 tenMinutes] initialWorld)
     = ([tenMinutes],
        {| scheduledNotifications := {[id tenMinutes := 2]};
           timeouts := {[2 := {| callbackReminder := tenMinutes; delay := Num 600000 |}]};
           nextTimeoutId := 3 |}).
Proof. split; reflexivity. Qed.

(** Scheduling the same reminder twice leaves one pending timeout. *)
Example schedule_twice_one_timeout :
  timeouts (NotificationService.run (fixedZone 0)
              [Schedule 1793536200000 1793536200000 tenMinutes;
               Schedule 1793536200005 1793536200005 tenMinutes] initialWorld)
  = {[2 := {| callbackReminder := tenMinutes; delay := Num 600000 |}]}.
Proof. reflexivity. Qed.

(** A recurring reminder with an unparsable time is armed again, with a
    [NaN] delay, each time its timeout fires. *)
Example nan_timer_rearms :
  fireTimeout (fixedZone 0) 1793536200001 1793536200001 1
    (scheduleNotification (fixedZone 0) 1793536200000 1793536200000
       (noonReminder (Some true)) initialWorld)
  = ([noonReminder (Some true)],
     {| scheduledNotifications := {[id (noonReminder (Some true)) := 2]};
        timeouts := {[2 := {| callbackReminder := noonReminder (Some true);
                              delay := NaN |}]};
        nextTimeoutId := 3 |}).
Proof. reflexivity. Qed.

Lemma isInside_antipode trig :
  isInside antipode {| address := "Null Island"; lat := 0; lng := 0;
                       radius := 100; triggerOn := trig |} = false.
Proof.
  unfold isInside, Rleb. simpl.
  destruct (Rle_dec _ _) as [Hle | _]; [| done]. exfalso. revert Hle.
  unfold calculateDistance, earthRadius, haversine, atan2.
  replace ((0 - 0) * PI / 180 / 2)%R with 0%R by field.
  replace ((0 - 180) * PI / 180 / 2)%R with (- (PI / 2))%R by field.
  replace (0 * PI / 180)%R with 0%R by field.
  rewrite sin_0, cos_0, sin_neg, sin_PI2.
  replace (0 * 0 + 1 * 1 * - (1) * - (1))%R with 1%R by ring.
  replace (1 - 1)%R with 0%R by ring. rewrite sqrt_1, sqrt_0.
  destruct (Rlt_dec 0 0) as [H | _]; [lra |].
  destruct (Rlt_dec 0 1) as [_ | H]; [| lra].
  pose proof PI2_3_2. lra.
Qed.

(** The reminder around (0, 0), [OnEnter], radius 100 m, watched from
    outside: the sample at the centre fires once, a further sample there
    fires nothing. *)
Example enter_scenario_fires_once :
  fst (LocationService.run
         [Start [originReminder OnEnter]; CurrentPosition 0 antipode;
          WatchPosition 1 origin; WatchPosition 1 origin]
         initialTracker)
  = [Trigger (originReminder OnEnter)].
Proof.
  repeat first [ rewrite lookup_insert_eq | rewrite lookup_empty
               | rewrite isInside_origin | rewrite isInside_antipode
               | progress cbn -[isInside] ].
  reflexivity.
Qed.

(** When the answer to the one-shot read comes after the first watch
    sample it replaces the baseline that sample gave: here the two watch
    samples are both inside, and the second fires. *)
Example late_one_shot_answer_replaces_baseline :
  fst (LocationService.run
         [Start [originReminder OnEnter]; WatchPosition 1 origin;
          CurrentPosition 0 antipode; WatchPosition 1 origin]
         initialTracker)
  = [Trigger (originReminder OnEnter)].
Proof.
  repeat first [ rewrite lookup_insert_eq | rewrite lookup_empty
               | rewrite isInside_origin | rewrite isInside_antipode
               | progress cbn -[isInside] ].
  reflexivity.
Qed.

(** A time of day whose hours lead beyond the range of [Date]:
    [setHours] gives an invalid date, and the timeout is armed with the
    delay [NaN]. *)
Example hours_beyond_date_range :
  todayOccurrence (fixedZone 0) 1793536200000 "99999999999:00" = NaN
  /\ scheduleNotification (fixedZone 0) 1793536200000 1793536200000
       (timeReminder Exact (Some "99999999999:00"%string) (Some false) None None)
       initialWorld
     = armed (timeReminder Exact (Some "99999999999:00"%string) (Some false) None None)
             NaN initialWorld.
Proof. split; vm_compute; reflexivity. Qed.

(** A watch sample that comes before the answer to the one-shot read is
    processed with nothing stored, and is itself the baseline. *)
Example watch_sample_precedes_one_shot_baseline :
  positionRequests
    (snd (LocationService.run [Start [originReminder OnEnter]; WatchPosition 1 origin]
            initialTracker))
  = [[originReminder OnEnter]]
  /\ is_Some (locationStates
       (snd (LocationService.run [Start [originReminder OnEnter]; WatchPosition 1 origin]
               initialTracker)) !! id (originReminder OnEnter)).
Proof.
  split; [reflexivity |]. simpl. rewrite lookup_insert_eq. eauto.
Qed.

(** The reminder is moved while the first read is unanswered: the read
    answers at (0, 0), and the first sample of the new watch, at (0, 0)
    too, fires the leave of a fence the device was never in. *)
Example restart_fires_at_rest :
  fst (LocationService.run
         [Start [originReminder OnLeave]; Start [movedReminder OnLeave];
          CurrentPosition 0 origin; WatchPosition 2 origin]
         initialTracker)
  = [Trigger (movedReminder OnLeave)].
Proof.
  repeat first [ rewrite lookup_insert_eq | rewrite lookup_empty
               | rewrite isInside_origin | rewrite isInside_quarter_turn
               | progress cbn -[isInside] ].
  reflexivity.
Qed.

End Scenarios.

(* ===================================================================== *)
(** ** Further properties of the time scheduler *)
(* ===================================================================== *)

Section SchedulerFrame.

Variable tz : TimeZone.

Lemma liveTimers_lookup i w h t :
  liveTimers i w !! h = Some t
  <-> timeouts w !! h = Some t /\ id (callbackReminder t) = i.
Proof. unfold liveTimers. by rewrite map_lookup_filter_Some. Qed.

Lemma cancelNotification_entry_other i j w :
  i <> j ->
  scheduledNotifications (cancelNotification i w) !! j = scheduledNotifications w !! j.
Proof.
  intros Hne. unfold cancelNotification.
  destruct (scheduledNotifications w !! i); [| done]. simpl.
  by rewrite lookup_delete_ne.
Qed.

Lemma liveTimers_cancelNotification_other i j w :
  consistent w -> i <> j ->
  liveTimers j (cancelNotification i w) = liveTimers j w.
Proof.
  intros Hw Hne. apply map_eq. intros k. apply option_eq. intros v.
  rewrite !liveTimers_lookup. unfold cancelNotification.
  destruct (scheduledNotifications w !! i) as [h0|] eqn:Hi; [| done]. simpl.
  rewrite lookup_delete_Some. split; [tauto |].
  intros [Hk Hid]. split; [| done]. split; [| done].
  intros Heq. destruct (record_pending w Hw i h0 Hi) as (t' & Ht' & Hid'). congruence.
Qed.

Lemma armed_entry_other r d j w :
  id r <> j ->
  scheduledNotifications (armed r d w) !! j = scheduledNotifications w !! j.
Proof.
  intros Hne. unfold armed. simpl.
  rewrite lookup_insert_ne by done. by apply cancelNotification_entry_other.
Qed.

Lemma liveTimers_armed_other r d j w :
  consistent w -> id r <> j ->
  liveTimers j (armed r d w) = liveTimers j w.
Proof.
  intros Hw Hne. rewrite <- (liveTimers_cancelNotification_other (id r) j w Hw Hne).
  apply map_eq. intros k. apply option_eq. intros v.
  rewrite !liveTimers_lookup. unfold armed. simpl.
  rewrite lookup_insert_Some. split.
  - intros [[[<- <-] | [Hk Hv]] Hid]; [done | done].
  - intros [Hk Hid]. split; [| done]. right. split; [| done].
    intros <-.
    assert (H : nextTimeoutId w < nextTimeoutId w); [| lia].
    apply (handle_given w Hw). exists v.
    eapply lookup_weaken; [exact Hk | apply cancelNotification_timeouts].
Qed.

Lemma scheduleNotification_other now targetNow r j w :
  consistent w -> id r <> j ->
  scheduledNotifications (scheduleNotification tz now targetNow r w) !! j
  = scheduledNotifications w !! j
  /\ liveTimers j (scheduleNotification tz now targetNow r w) = liveTimers j w.
Proof.
  intros Hw Hne.
  destruct (scheduleNotification_cases tz now targetNow r w)
    as [-> | (d & _ & _ & _ & ->)].
  - split; [by apply cancelNotification_entry_other
           | by apply liveTimers_cancelNotification_other].
  - split; [by apply armed_entry_other | by apply liveTimers_armed_other].
Qed.

Lemma scheduleNotification_after_drop now targetNow w h t :
  consistent w ->
  timeouts w !! h = Some t ->
  scheduleNotification tz now targetNow (callbackReminder t)
    {| scheduledNotifications := scheduledNotifications w;
       timeouts := delete h (timeouts w);
       nextTimeoutId := nextTimeoutId w |}
  = scheduleNotification tz now targetNow (callbackReminder t) w.
Proof.
  intros Hw Ht. unfold scheduleNotification.
  by rewrite (cancelNotification_after_drop w h t Hw Ht).
Qed.

Lemma fireTimeout_law now targetNow h w :
  consistent w ->
  fireTimeout tz now targetNow h w
  = match timeouts w !! h with
    | Some t =>
        ([callbackReminder t],
         if truthy_bool (isRecurring (callbackReminder t))
         then scheduleNotification tz now targetNow (callbackReminder t) w
         else cancelNotification (id (callbackReminder t)) w)
    | None => ([], w)
    end.
Proof.
  intros Hw. unfold fireTimeout.
  destruct (timeouts w !! h) as [t|] eqn:Ht; [| done]. f_equal.
  destruct (truthy_bool (isRecurring (callbackReminder t))).
  - by apply scheduleNotification_after_drop.
  - unfold cancelNotification. by rewrite (timer_recorded w Hw h t Ht).
Qed.

End SchedulerFrame.

(** X1.  In every state the scheduler reaches, scheduling or cancelling
    one reminder leaves every other id as it was: its entry in
    [scheduledNotifications] and its pending timeouts. *)
Theorem scheduling_leaves_other_reminders_alone (tz : TimeZone) (es : list Event) :
  let w := run tz es initialWorld in
  (forall now targetNow r j,
     id r <> j ->
     scheduledNotifications (scheduleNotification tz now targetNow r w) !! j
     = scheduledNotifications w !! j
     /\ liveTimers j (scheduleNotification tz now targetNow r w) = liveTimers j w)
  /\ (forall i j,
        i <> j ->
        scheduledNotifications (cancelNotification i w) !! j
        = scheduledNotifications w !! j
        /\ liveTimers j (cancelNotification i w) = liveTimers j w).
Proof.
  intros w.
  assert (Hw : consistent w) by apply consistent_run, consistent_initialWorld.
  split.
  - intros now targetNow r j Hne. by apply scheduleNotification_other.
  - intros i j Hne. split; [by apply cancelNotification_entry_other
                           | by apply liveTimers_cancelNotification_other].
Qed.

(** X2.  In every state the scheduler reaches, a timeout that fires shows
    its reminder once, and leaves the scheduler as a fresh
    [scheduleNotification] of that reminder does when the reminder is
    recurring, and as [cancelNotification] of its id does when it is not;
    a handle that is not pending fires nothing. *)
Theorem firing_reschedules_or_forgets (tz : TimeZone) (es : list Event)
    (now targetNow h : Z) :
  let w := run tz es initialWorld in
  fireTimeout tz now targetNow h w
  = match timeouts w !! h with
    | Some t =>
        ([callbackReminder t],
         if truthy_bool (isRecurring (callbackReminder t))
         then scheduleNotification tz now targetNow (callbackReminder t) w
         else cancelNotification (id (callbackReminder t)) w)
    | None => ([], w)
    end.
Proof.
  intros w. apply fireTimeout_law.
  apply consistent_run, consistent_initialWorld.
Qed.

Section SchedulerEdges.

Variable tz : TimeZone.
Variables now targetNow : Z.

Lemma exactTarget_future r tod t0 :
  todayOccurrence tz targetNow tod = Num t0 -> now < t0 ->
  exactTarget tz now targetNow r tod = Num t0.
Proof.
  intros Ht0 Hfut. unfold exactTarget. rewrite Ht0. simpl.
  destruct (Z.leb_spec t0 now); [lia | done].
Qed.

Lemma exactTarget_recurring_loop r tod t0 n u :
  isRecurring r = Some true ->
  todayOccurrence tz targetNow tod = Num t0 -> t0 <= now ->
  or_number (interval r) (Num 1) = Num n -> 0 < n ->
  or_enum (intervalUnit r) Days = u ->
  n * unitMs u <= MAX_SAFE_INTEGER ->
  now + n * unitMs u <= maxTime ->
  exists k, 0 < k
    /\ exactTarget tz now targetNow r tod = Num (t0 + k * (n * unitMs u))
    /\ now < t0 + k * (n * unitMs u)
    /\ (forall j, now < t0 + j * (n * unitMs u) -> k <= j).
Proof.
  intros Hrec Ht0 Hpast Hn Hpos Hu Hsafe Hrange.
  assert (Hms : 0 < n * unitMs u) by (destruct u; simpl; lia).
  pose proof (todayOccurrence_in_range _ _ _ _ Ht0) as Hvalid.
  destruct (whileNotFuture_next (n * unitMs u) now t0 Hms Hpast ltac:(lia) Hrange)
    as (k & Hk & Hloop & Hfut & _ & Hmin).
  exists k. split; [done |]. split; [| done].
  unfold exactTarget. rewrite Ht0, Hrec, Hn, Hu. simpl.
  destruct (Z.leb_spec t0 now); [| lia].
  rewrite getIntervalMilliseconds_Num by lia. simpl.
  destruct (Z.ltb_spec 0 (n * unitMs u)); [| lia]. exact Hloop.
Qed.

Lemma exactTarget_recurring_negative r tod t0 n :
  isRecurring r = Some true ->
  todayOccurrence tz targetNow tod = Num t0 -> t0 <= now ->
  interval r = Some (Num n) -> n < 0 ->
  exactTarget tz now targetNow r tod = setDateNext tz (Num t0).
Proof.
  intros Hrec Ht0 Hpast Hn Hneg.
  unfold exactTarget. rewrite Ht0, Hrec, Hn. simpl.
  destruct (Z.leb_spec t0 now); [| lia].
  destruct (Z.eqb_spec n 0); [lia |]. simpl.
  destruct (getIntervalMilliseconds_sgn n (or_enum (intervalUnit r) Days))
    as (v & -> & Hsgn).
  simpl. destruct (Z.ltb_spec 0 v); [lia | done].
Qed.

Lemma or_number_falsy o : truthy_number o = false -> or_number o (Num 1) = Num 1.
Proof. intros H. unfold or_number. destruct o; [by rewrite H | done]. Qed.

(** Without the separator, [split] gives the whole string as its only
    part. *)
Lemma split_aux_without sep s :
  withoutChar sep s -> forall acc, exists part, split_aux sep acc s = [part].
Proof.
  induction s as [| c s IH]; intros Hno acc; simpl; [eauto |].
  destruct (Ascii.eqb_spec c sep) as [-> | _].
  - exfalso. apply (Hno sep); [by left | done].
  - apply IH. intros c' Hin. apply Hno. by right.
Qed.

Lemma todayOccurrence_without_colon tod :
  withoutChar ":" tod -> todayOccurrence tz targetNow tod = NaN.
Proof.
  intros Hno. unfold todayOccurrence, split.
  destruct (split_aux_without ":" tod Hno EmptyString) as [part ->]. simpl.
  by destruct (Number part).
Qed.

End SchedulerEdges.

(** X3.  Exact mode, on a clock after 1970, today's occurrence of
    [timeOfDay] a valid date still ahead of the call moment: whatever the
    recurrence and the interval, the target is that occurrence itself and
    the timeout is armed with the time left until it. *)
Theorem exact_mode_future_occurrence (tz : TimeZone) (now targetNow : Z)
    (r : Reminder) (w : World) (tod : string) (t0 : Z) :
  triggerType r = Time ->
  triggerTimeType r = Some Exact ->
  timeOfDay r = Some tod ->
  todayOccurrence tz targetNow tod = Num t0 ->
  0 <= now < t0 ->
  exactTarget tz now targetNow r tod = Num t0
  /\ t0 <= maxTime
  /\ scheduleNotification tz now targetNow r w = armed r (Num (t0 - now)) w.
Proof.
  intros Ht Hm Htod Ht0 [Hnow Hfut].
  pose proof (exactTarget_future tz now targetNow r tod t0 Ht0 Hfut) as Htarget.
  pose proof (todayOccurrence_in_range _ _ _ _ Ht0) as Hvalid.
  split; [done |]. split; [lia |].
  apply scheduleNotification_armed; [done | |].
  - rewrite (computeDelay_exact tz now targetNow r tod Hm Htod
               (todayOccurrence_truthy _ _ _ _ Ht0)).
    rewrite Htarget. simpl. unfold fsub.
    rewrite roundDouble_exact by (unfold maxTime in Hvalid; lia). done.
  - simpl. apply Z.leb_gt. lia.
Qed.

(** At 08:00 UTC, a 09:00 reminder. *)
Lemma exact_mode_future_occurrence_witness :
  exactTarget (fixedZone 0) 1793520000000 1793520000000
    (timeReminder Exact (Some "09:00"%string) (Some true) (Some (Num 2)) (Some Hours))
    "09:00" = Num 1793523600000
  /\ 1793523600000 <= maxTime
  /\ scheduleNotification (fixedZone 0) 1793520000000 1793520000000
       (timeReminder Exact (Some "09:00"%string) (Some true) (Some (Num 2)) (Some Hours))
       initialWorld
     = armed (timeReminder Exact (Some "09:00"%string) (Some true) (Some (Num 2)) (Some Hours))
             (Num (1793523600000 - 1793520000000)) initialWorld.
Proof.
  apply (exact_mode_future_occurrence (fixedZone 0) 1793520000000 1793520000000
           (timeReminder Exact (Some "09:00"%string) (Some true) (Some (Num 2)) (Some Hours))
           initialWorld "09:00" 1793523600000);
    [reflexivity | reflexivity | reflexivity | vm_compute; reflexivity | lia].
Defined.

(** X4.  Exact mode, recurring, today's occurrence [t0] not after the call
    moment, with an [interval] that is absent, 0 or [NaN]: the interval
    counts as 1, and an absent [intervalUnit] as days.  When one such
    interval after [now] is still a valid date, the target is the first
    instant after [now] among [t0] plus whole multiples of it. *)
Theorem exact_recurring_fallbacks (tz : TimeZone) (now targetNow : Z)
    (r : Reminder) (tod : string) (t0 : Z) :
  isRecurring r = Some true ->
  todayOccurrence tz targetNow tod = Num t0 ->
  t0 <= now ->
  truthy_number (interval r) = false ->
  now + unitMs (or_enum (intervalUnit r) Days) <= maxTime ->
  exists k, 0 < k
    /\ exactTarget tz now targetNow r tod
       = Num (t0 + k * unitMs (or_enum (intervalUnit r) Days))
    /\ now < t0 + k * unitMs (or_enum (intervalUnit r) Days)
    /\ (forall j, now < t0 + j * unitMs (or_enum (intervalUnit r) Days) -> k <= j).
Proof.
  intros Hrec Ht0 Hpast Hfalsy Hrange.
  destruct (exactTarget_recurring_loop tz now targetNow r tod t0 1
              (or_enum (intervalUnit r) Days)) as (k & Hk & Htarget & Hfut & Hmin);
    try done.
  - by apply or_number_falsy.
  - unfold MAX_SAFE_INTEGER. destruct (or_enum (intervalUnit r) Days); simpl; lia.
  - lia.
  - rewrite Z.mul_1_l in *. exists k. done.
Qed.

(** At 12:30 UTC, a recurring 09:00 reminder without interval and unit:
    the next day at 09:00. *)
Lemma exact_recurring_fallbacks_witness :
  exists k, 0 < k
    /\ exactTarget (fixedZone 0) 1793536200000 1793536200000
         (timeReminder Exact (Some "09:00"%string) (Some true) None None) "09:00"
       = Num (1793523600000 + k * unitMs (or_enum
                (intervalUnit (timeReminder Exact (Some "09:00"%string) (Some true) None None))
                Days))
    /\ 1793536200000 < 1793523600000 + k * unitMs (or_enum
                (intervalUnit (timeReminder Exact (Some "09:00"%string) (Some true) None None))
                Days)
    /\ (forall j, 1793536200000 < 1793523600000 + j * unitMs (or_enum
                (intervalUnit (timeReminder Exact (Some "09:00"%string) (Some true) None None))
                Days) -> k <= j).
Proof.
  apply (exact_recurring_fallbacks (fixedZone 0) 1793536200000 1793536200000
           (timeReminder Exact (Some "09:00"%string) (Some true) None None)
           "09:00" 1793523600000);
    [reflexivity | vm_compute; reflexivity | lia | reflexivity
    | vm_compute; discriminate].
Defined.

(** X22.  Exact mode, recurring, today's occurrence [t0] not after the
    call moment, with a negative [interval]: the product with the unit is
    negative too (rounding keeps the sign), the loop is not entered, and
    the target is the next calendar day at the same local time, as for a
    reminder that does not recur. *)
Theorem exact_recurring_negative_interval (tz : TimeZone) (now targetNow : Z)
    (r : Reminder) (tod : string) (t0 n : Z) :
  isRecurring r = Some true ->
  todayOccurrence tz targetNow tod = Num t0 ->
  t0 <= now ->
  interval r = Some (Num n) -> n < 0 ->
  exactTarget tz now targetNow r tod = setDateNext tz (Num t0).
Proof.
  intros Hrec Ht0 Hpast Hn Hneg.
  by apply (exactTarget_recurring_negative tz now targetNow r tod t0 n).
Qed.

(** At 12:30 UTC, a recurring 09:00 reminder every minus two hours. *)
Lemma exact_recurring_negative_interval_witness :
  exactTarget (fixedZone 0) 1793536200000 1793536200000
    (timeReminder Exact (Some "09:00"%string) (Some true) (Some (Num (-2))) (Some Hours))
    "09:00"
  = setDateNext (fixedZone 0) (Num 1793523600000).
Proof.
  apply (exact_recurring_negative_interval (fixedZone 0) 1793536200000 1793536200000
           (timeReminder Exact (Some "09:00"%string) (Some true) (Some (Num (-2)))
              (Some Hours))
           "09:00" 1793523600000 (-2));
    [reflexivity | vm_compute; reflexivity | lia | reflexivity | lia].
Defined.

(** X5.  Interval mode with an [interval] that is absent, [NaN], 0 or
    negative arms nothing, whatever the unit: [scheduleNotification] does
    no more than its initial [cancelNotification]. *)
Theorem interval_mode_needs_positive_interval (tz : TimeZone) (now targetNow : Z)
    (r : Reminder) (w : World) :
  triggerType r = Time ->
  triggerTimeType r = Some Interval ->
  (forall n, interval r = Some (Num n) -> n <= 0) ->
  scheduleNotification tz now targetNow r w = cancelNotification (id r) w.
Proof.
  intros Ht Hm Hn. apply scheduleNotification_returns; [done |].
  unfold computeDelay, isExact, isInterval. rewrite Hm.
  change (andb false _) with false. cbv iota.
  destruct (interval r) as [[| n] |] eqn:Hi.
  - left. destruct (intervalUnit r); reflexivity.
  - specialize (Hn n eq_refl).
    destruct (intervalUnit r) as [u|]; [| left; reflexivity].
    unfold truthy_number.
    destruct (Z.eqb_spec n 0) as [-> | Hne]; [left; reflexivity |].
    right. destruct (getIntervalMilliseconds_sgn n u) as (v & Hv & Hsgn).
    exists (Num v). split; [by rewrite Hv |].
    simpl. apply Z.leb_le. lia.
  - left. reflexivity.
Qed.

(** An interval of minus five minutes. *)
Lemma interval_mode_needs_positive_interval_witness :
  scheduleNotification (fixedZone 0) 1793536200000 1793536200000
    (timeReminder Interval None (Some false) (Some (Num (-5))) (Some Minutes)) initialWorld
  = cancelNotification
      (id (timeReminder Interval None (Some false) (Some (Num (-5))) (Some Minutes)))
      initialWorld.
Proof.
  apply (interval_mode_needs_positive_interval (fixedZone 0) 1793536200000 1793536200000
           (timeReminder Interval None (Some false) (Some (Num (-5))) (Some Minutes))
           initialWorld);
    [reflexivity | reflexivity |].
  intros n Hn. injection Hn as <-. lia.
Defined.

(** X6.  Exact mode with a non-empty [timeOfDay] that holds no colon
    (such as ["0900"] or ["9"]): the minutes are [undefined], the date is
    invalid, the delay is [NaN], and a timeout with that [NaN] delay is
    armed. *)
Theorem time_without_colon_arms_nan_timer (tz : TimeZone) (now targetNow : Z)
    (r : Reminder) (w : World) (tod : string) :
  triggerType r = Time ->
  triggerTimeType r = Some Exact ->
  timeOfDay r = Some tod ->
  tod <> EmptyString ->
  withoutChar ":" tod ->
  computeDelay tz now targetNow r = Some NaN
  /\ scheduleNotification tz now targetNow r w = armed r NaN w.
Proof.
  intros Ht Hm Htod Hne Hno.
  assert (Hd : computeDelay tz now targetNow r = Some NaN).
  { rewrite (computeDelay_exact tz now targetNow r tod Hm Htod)
      by (by destruct tod).
    unfold exactTarget. by rewrite (todayOccurrence_without_colon tz targetNow tod Hno). }
  split; [done |]. by apply scheduleNotification_armed.
Qed.

(** The time of day written 0900. *)
Lemma time_without_colon_arms_nan_timer_witness :
  computeDelay (fixedZone 0) 1793536200000 1793536200000
    (timeReminder Exact (Some "0900"%string) (Some false) None None) = Some NaN
  /\ scheduleNotification (fixedZone 0) 1793536200000 1793536200000
       (timeReminder Exact (Some "0900"%string) (Some false) None None) initialWorld
     = armed (timeReminder Exact (Some "0900"%string) (Some false) None None) NaN
             initialWorld.
Proof.
  apply (time_without_colon_arms_nan_timer (fixedZone 0) 1793536200000 1793536200000
           (timeReminder Exact (Some "0900"%string) (Some false) None None)
           initialWorld "0900");
    [reflexivity | reflexivity | reflexivity | discriminate |].
  intros c Hin. simpl in Hin.
  destruct Hin as [<- | [<- | [<- | [<- | []]]]]; discriminate.
Defined.

(* ===================================================================== *)
(** ** The reminders hook *)
(* ===================================================================== *)

Section Hook.

Import RemindersHook.

Variable tz : TimeZone.
Variable clock : nat -> Z * Z.

Lemma scheduleNotification_nextTimeoutId now targetNow r w :
  nextTimeoutId w <= nextTimeoutId (scheduleNotification tz now targetNow r w).
Proof.
  destruct (scheduleNotification_cases tz now targetNow r w)
    as [-> | (d & _ & _ & _ & ->)].
  - rewrite cancelNotification_nextTimeoutId. lia.
  - unfold armed. simpl. lia.
Qed.

Lemma consistent_scheduleAll rs :
  forall k w, consistent w -> consistent (scheduleAll tz clock k rs w).
Proof.
  induction rs as [| r rs IH]; intros k w Hw; [done |].
  simpl. apply IH. by apply consistent_scheduleNotification.
Qed.

Lemma scheduleAll_nextTimeoutId rs :
  forall k w, nextTimeoutId w <= nextTimeoutId (scheduleAll tz clock k rs w).
Proof.
  induction rs as [| r rs IH]; intros k w; simpl; [lia |].
  etransitivity; [| apply IH]. apply scheduleNotification_nextTimeoutId.
Qed.

Lemma scheduleAll_other rs :
  forall k w j,
    consistent w -> ~ In j (map id rs) ->
    scheduledNotifications (scheduleAll tz clock k rs w) !! j
    = scheduledNotifications w !! j
    /\ liveTimers j (scheduleAll tz clock k rs w) = liveTimers j w.
Proof.
  induction rs as [| r rs IH]; intros k w j Hw Hj; [done |].
  simpl in *.
  destruct (scheduleNotification_other tz (fst (clock k)) (snd (clock k)) r j w Hw)
    as [He Hl]; [tauto |].
  destruct (IH (S k) (scheduleNotification tz (fst (clock k)) (snd (clock k)) r w) j)
    as [He' Hl']; [by apply consistent_scheduleNotification | tauto |].
  split; congruence.
Qed.

Lemma scheduleNotification_interval now targetNow r w n u :
  triggerType r = Time -> triggerTimeType r = Some Interval ->
  interval r = Some (Num n) -> 0 < n -> intervalUnit r = Some u ->
  n * unitMs u <= MAX_SAFE_INTEGER ->
  scheduleNotification tz now targetNow r w = armed r (Num (n * unitMs u)) w.
Proof.
  intros Ht Hm Hi Hn Hu Hsafe.
  assert (Hpos : 0 < n * unitMs u) by (destruct u; simpl; lia).
  apply scheduleNotification_armed; [done | |].
  - unfold computeDelay, isExact, isInterval. rewrite Hm, Hi, Hu. simpl.
    destruct (Z.eqb_spec n 0) as [-> | _]; [lia |]. simpl.
    by rewrite getIntervalMilliseconds_Num by lia.
  - simpl. apply Z.leb_gt. lia.
Qed.

Lemma liveTimers_armed r d w :
  consistent w ->
  liveTimers (id r) (armed r d w)
  = {[nextTimeoutId w := {| callbackReminder := r; delay := d |}]}.
Proof.
  intros Hw.
  destruct (liveTimers_recorded (id r) (armed r d w) (nextTimeoutId w)
              (consistent_armed r d w Hw)) as (t & Hlook & Hlive).
  { unfold armed. simpl. apply lookup_insert_eq. }
  rewrite Hlive. unfold armed in Hlook. simpl in Hlook.
  rewrite lookup_insert_eq in Hlook. by injection Hlook as <-.
Qed.

Lemma scheduleAll_interval rs :
  forall k w r n u,
    consistent w -> List.NoDup (map id rs) -> In r rs ->
    triggerType r = Time -> triggerTimeType r = Some Interval ->
    interval r = Some (Num n) -> 0 < n -> intervalUnit r = Some u ->
    n * unitMs u <= MAX_SAFE_INTEGER ->
    exists h, nextTimeoutId w <= h
      /\ liveTimers (id r) (scheduleAll tz clock k rs w)
         = {[h := {| callbackReminder := r; delay := Num (n * unitMs u) |}]}.
Proof.
  induction rs as [| r0 rs IH]; intros k w r n u Hw Hnd Hin Ht Hm Hi Hn Hu Hsafe;
    [done |].
  simpl in Hnd. apply NoDup_cons_iff in Hnd as [Hnotin Hnd].
  simpl. destruct Hin as [-> | Hin].
  - exists (nextTimeoutId w). split; [lia |].
    destruct (scheduleAll_other rs (S k)
                (scheduleNotification tz (fst (clock k)) (snd (clock k)) r w) (id r))
      as [_ ->]; [by apply consistent_scheduleNotification | done |].
    rewrite (scheduleNotification_interval _ _ r w n u) by done.
    by apply liveTimers_armed.
  - destruct (IH (S k) (scheduleNotification tz (fst (clock k)) (snd (clock k)) r0 w)
                r n u) as (h & Hh & Hlive); try done.
    { by apply consistent_scheduleNotification. }
    exists h. split; [| done].
    pose proof (scheduleNotification_nextTimeoutId (fst (clock k)) (snd (clock k)) r0 w).
    lia.
Qed.

Lemma NoDup_map_filter (f : Reminder -> bool) rs :
  List.NoDup (map id rs) -> List.NoDup (map id (List.filter f rs)).
Proof.
  induction rs as [| r rs IH]; intros Hnd; [done |].
  simpl in *. apply NoDup_cons_iff in Hnd as [Hnotin Hnd].
  destruct (f r); [| by apply IH]. simpl. apply List.NoDup_cons; [| by apply IH].
  intros Hin. apply Hnotin. apply in_map_iff in Hin as (r' & Hid & Hin').
  apply filter_In in Hin' as [Hin' _]. apply in_map_iff. eauto.
Qed.

Lemma isTime_true r : isTime r = true <-> triggerType r = Time.
Proof. unfold isTime. by destruct (triggerType r). Qed.

Lemma remindersEffect_other reminders w t j :
  consistent w ->
  (forall r, In r reminders -> triggerType r = Time -> id r <> j) ->
  scheduledNotifications (fst (remindersEffect tz clock reminders w t)) !! j
  = scheduledNotifications w !! j
  /\ liveTimers j (fst (remindersEffect tz clock reminders w t)) = liveTimers j w.
Proof.
  intros Hw Hj. unfold remindersEffect. simpl.
  apply scheduleAll_other; [done |].
  intros Hin. apply in_map_iff in Hin as (r & Hid & Hin).
  apply filter_In in Hin as [Hin Htime]. apply isTime_true in Htime.
  by apply (Hj r).
Qed.

Lemma updateReminder_In updated prev r :
  In r (updateReminder updated prev) ->
  r = updated \/ (In r prev /\ id r <> id updated).
Proof.
  unfold updateReminder. rewrite in_map_iff. intros (r0 & Heq & Hin).
  destruct (String.eqb_spec (id r0) (id updated)); [by left |].
  right. by subst.
Qed.

Lemma NoDup_snoc (l : list string) (a : string) :
  List.NoDup (l ++ [a]) <-> ~ In a l /\ List.NoDup l.
Proof.
  induction l as [| x l IH]; simpl.
  - split; [intros _ | intros _; apply List.NoDup_cons; [simpl; tauto |]];
      [split; [tauto |] |]; apply List.NoDup_nil.
  - rewrite !NoDup_cons_iff, IH, in_app_iff. simpl. intuition congruence.
Qed.

Lemma toString_inj a b : toString a = toString b -> a = b.
Proof.
  unfold toString. intros H.
  assert (Hback : forall z,
             NilZero.int_of_string (NilZero.string_of_int (Z.to_int z))
             = Some (Z.to_int z)).
  { intros z. apply NilZero.isi; destruct z; simpl; try discriminate;
      intros Heq; injection Heq; apply DecimalPos.Unsigned.to_uint_nonnil. }
  pose proof (Hback a) as Ha. rewrite H, Hback in Ha.
  injection Ha as Ha. symmetry. by apply DecimalZ.to_int_inj.
Qed.

End Hook.

(** X7.  The effect that follows a change of the list, on reminders with
    distinct ids, from any state the scheduler reaches: every time-based
    reminder in Interval mode with a positive interval and a unit, whose
    [interval * unitMs] is a safe integer (at most 2^53 - 1), ends with
    exactly one pending timeout, armed by this run (its handle is a new
    one) with the full delay [interval * unitMs], whatever was pending
    for it; and an id that no time-based reminder of the list carries
    keeps its entry and its pending timeouts: the effect cancels nothing
    for it. *)
Theorem effect_restarts_every_interval_timer (tz : TimeZone) (es : list Event)
    (clock : nat -> Z * Z) (reminders : list Reminder)
    (t : LocationService.Tracker) :
  List.NoDup (map id reminders) ->
  let w := run tz es initialWorld in
  let w' := fst (RemindersHook.remindersEffect tz clock reminders w t) in
  (forall r n u,
     In r reminders ->
     triggerType r = Time -> triggerTimeType r = Some Interval ->
     interval r = Some (Num n) -> 0 < n -> intervalUnit r = Some u ->
     n * unitMs u <= MAX_SAFE_INTEGER ->
     exists h, nextTimeoutId w <= h
       /\ liveTimers (id r) w'
          = {[h := {| callbackReminder := r; delay := Num (n * unitMs u) |}]})
  /\ (forall j,
        (forall r, In r reminders -> triggerType r = Time -> id r <> j) ->
        scheduledNotifications w' !! j = scheduledNotifications w !! j
        /\ liveTimers j w' = liveTimers j w).
Proof.
  intros Hnd w w'.
  assert (Hw : consistent w) by apply consistent_run, consistent_initialWorld.
  split.
  - intros r n u Hin Ht Hm Hi Hn Hu Hsafe. unfold w', RemindersHook.remindersEffect. simpl.
    apply scheduleAll_interval; try done.
    + by apply NoDup_map_filter.
    + apply filter_In. split; [done |]. by apply isTime_true.
  - intros j Hj. by apply remindersEffect_other.
Qed.

(** The list holding the reminder of every 10 minutes. *)
Lemma effect_restarts_every_interval_timer_witness :
  (forall r n u,
     In r [tenMinutes] ->
     triggerType r = Time -> triggerTimeType r = Some Interval ->
     interval r = Some (Num n) -> 0 < n -> intervalUnit r = Some u ->
     n * unitMs u <= MAX_SAFE_INTEGER ->
     exists h, nextTimeoutId (run (fixedZone 0) [] initialWorld) <= h
       /\ liveTimers (id r)
            (fst (RemindersHook.remindersEffect (fixedZone 0)
                    (fun _ => (1793536200000, 1793536200000)) [tenMinutes]
                    (run (fixedZone 0) [] initialWorld)
                    LocationService.initialTracker))
          = {[h := {| callbackReminder := r; delay := Num (n * unitMs u) |}]})
  /\ (forall j,
        (forall r, In r [tenMinutes] -> triggerType r = Time -> id r <> j) ->
        scheduledNotifications
          (fst (RemindersHook.remindersEffect (fixedZone 0)
                  (fun _ => (1793536200000, 1793536200000)) [tenMinutes]
                  (run (fixedZone 0) [] initialWorld)
                  LocationService.initialTracker)) !! j
        = scheduledNotifications (run (fixedZone 0) [] initialWorld) !! j
        /\ liveTimers j
             (fst (RemindersHook.remindersEffect (fixedZone 0)
                     (fun _ => (1793536200000, 1793536200000)) [tenMinutes]
                     (run (fixedZone 0) [] initialWorld)
                     LocationService.initialTracker))
           = liveTimers j (run (fixedZone 0) [] initialWorld)).
Proof.
  apply (effect_restarts_every_interval_timer (fixedZone 0) []
           (fun _ => (1793536200000, 1793536200000)) [tenMinutes]
           LocationService.initialTracker).
  simpl. apply List.NoDup_cons; [simpl; tauto | apply List.NoDup_nil].
Defined.

(** X8.  A reminder that [updateReminder] turns into a location-based one
    keeps the timeout that was pending for its id: the effect that follows
    the change schedules time-based reminders only and cancels nothing, so
    the old timeout stays armed with the old reminder. *)
Theorem retyped_reminder_keeps_its_timer (tz : TimeZone) (es : list Event)
    (clock : nat -> Z * Z) (reminders : list Reminder) (updated : Reminder)
    (t : LocationService.Tracker) :
  triggerType updated = Location ->
  let w := run tz es initialWorld in
  let w' := fst (RemindersHook.remindersChanged tz clock
                   (RemindersHook.updateReminder updated reminders) w t) in
  scheduledNotifications w' !! id updated = scheduledNotifications w !! id updated
  /\ liveTimers (id updated) w' = liveTimers (id updated) w.
Proof.
  intros Hloc w w'.
  assert (Hw : consistent w) by apply consistent_run, consistent_initialWorld.
  apply remindersEffect_other; [done |].
  intros r Hin Htime Hid.
  apply updateReminder_In in Hin as [-> | [_ Hne]]; congruence.
Qed.

(** The 10-minute reminder, scheduled, then edited into a location
    reminder. *)
Lemma retyped_reminder_keeps_its_timer_witness :
  scheduledNotifications
    (fst (RemindersHook.remindersChanged (fixedZone 0)
            (fun _ => (1793536260000, 1793536260000))
            (RemindersHook.updateReminder
               (RemindersHook.withIdentity (id tenMinutes) 0 (originReminder OnEnter))
               [tenMinutes])
            (run (fixedZone 0) [Schedule 1793536200000 1793536200000 tenMinutes]
               initialWorld)
            LocationService.initialTracker))
    !! id (RemindersHook.withIdentity (id tenMinutes) 0 (originReminder OnEnter))
  = scheduledNotifications
      (run (fixedZone 0) [Schedule 1793536200000 1793536200000 tenMinutes] initialWorld)
      !! id (RemindersHook.withIdentity (id tenMinutes) 0 (originReminder OnEnter))
  /\ liveTimers (id (RemindersHook.withIdentity (id tenMinutes) 0 (originReminder OnEnter)))
       (fst (RemindersHook.remindersChanged (fixedZone 0)
               (fun _ => (1793536260000, 1793536260000))
               (RemindersHook.updateReminder
                  (RemindersHook.withIdentity (id tenMinutes) 0 (originReminder OnEnter))
                  [tenMinutes])
               (run (fixedZone 0) [Schedule 1793536200000 1793536200000 tenMinutes]
                  initialWorld)
               LocationService.initialTracker))
     = liveTimers (id (RemindersHook.withIdentity (id tenMinutes) 0 (originReminder OnEnter)))
         (run (fixedZone 0) [Schedule 1793536200000 1793536200000 tenMinutes]
            initialWorld).
Proof.
  apply (retyped_reminder_keeps_its_timer (fixedZone 0)
           [Schedule 1793536200000 1793536200000 tenMinutes]
           (fun _ => (1793536260000, 1793536260000)) [tenMinutes]
           (RemindersHook.withIdentity (id tenMinutes) 0 (originReminder OnEnter))
           LocationService.initialTracker).
  reflexivity.
Defined.

(** X9.  [deleteReminder(id)], from any state the scheduler reaches: the
    list keeps exactly the reminders of another id, [id] has no entry and
    no pending timeout left, the timeouts of other ids stay, and the
    effect that follows the change arms nothing for [id]. *)
Theorem delete_removes_reminder_and_timer (tz : TimeZone) (es : list Event)
    (clock : nat -> Z * Z) (i : string) (prev : list Reminder)
    (t : LocationService.Tracker) :
  let w := run tz es initialWorld in
  let rs' := fst (RemindersHook.deleteReminder i prev w) in
  let w' := snd (RemindersHook.deleteReminder i prev w) in
  (forall r, In r rs' <-> In r prev /\ id r <> i)
  /\ scheduledNotifications w' !! i = None
  /\ liveTimers i w' = ∅
  /\ (forall j, i <> j -> liveTimers j w' = liveTimers j w)
  /\ liveTimers i (fst (RemindersHook.remindersChanged tz clock rs' w' t)) = ∅.
Proof.
  intros w rs' w'.
  assert (Hw : consistent w) by apply consistent_run, consistent_initialWorld.
  assert (Hw' : consistent w') by by apply consistent_cancelNotification.
  assert (Hin : forall r, In r rs' <-> In r prev /\ id r <> i).
  { intros r. unfold rs', RemindersHook.deleteReminder. simpl.
    rewrite filter_In, negb_true_iff.
    destruct (String.eqb_spec (id r) i); intuition congruence. }
  assert (Hentry : scheduledNotifications w' !! i = None)
    by apply cancelNotification_lookup_eq.
  assert (Hlive : liveTimers i w' = ∅) by by apply liveTimers_unrecorded.
  split; [done |]. split; [done |]. split; [done |]. split.
  - intros j Hne. by apply liveTimers_cancelNotification_other.
  - destruct (remindersEffect_other tz clock rs' w'
                (LocationService.stopWatchingLocation t) i Hw') as [_ Hsame].
    + intros r Hr _. by apply Hin in Hr as [_ Hne].
    + unfold RemindersHook.remindersChanged. by rewrite Hsame.
Qed.

(** X10.  [updateReminder] never changes which ids the list holds or
    their order; with an id the list does not hold it changes nothing;
    every reminder of the result is the updated one or an old one of
    another id; and updating twice is updating once. *)
Theorem update_keeps_ids (updated : Reminder) (prev : list Reminder) :
  map id (RemindersHook.updateReminder updated prev) = map id prev
  /\ (~ In (id updated) (map id prev) ->
      RemindersHook.updateReminder updated prev = prev)
  /\ (forall r, In r (RemindersHook.updateReminder updated prev) ->
        r = updated \/ (In r prev /\ id r <> id updated))
  /\ (In (id updated) (map id prev) ->
      In updated (RemindersHook.updateReminder updated prev))
  /\ RemindersHook.updateReminder updated (RemindersHook.updateReminder updated prev)
     = RemindersHook.updateReminder updated prev.
Proof.
  unfold RemindersHook.updateReminder.
  split; [| split; [| split; [| split]]].
  - rewrite map_map. apply map_ext. intros r.
    by destruct (String.eqb_spec (id r) (id updated)).
  - intros Hnotin. rewrite <- (map_id prev) at 2. apply map_ext_in. intros r Hin.
    destruct (String.eqb_spec (id r) (id updated)) as [Heq | _]; [| done].
    exfalso. apply Hnotin. rewrite <- Heq. by apply in_map.
  - intros r. apply updateReminder_In.
  - intros Hin. apply in_map_iff in Hin as (r & Hid & Hin).
    apply in_map_iff. exists r. split; [| done].
    by destruct (String.eqb_spec (id r) (id updated)).
  - rewrite map_map. apply map_ext. intros r.
    destruct (String.eqb_spec (id r) (id updated)) as [_ | Hne].
    + by rewrite String.eqb_refl.
    + by destruct (String.eqb_spec (id r) (id updated)).
Qed.

(** X11.  [addReminder] gives the new reminder the decimal text of the
    clock as its id: two additions append the texts of their two clock
    readings, and these are the same id exactly when the readings are the
    same millisecond; on a list of distinct ids, the ids stay distinct
    exactly when the text of the clock is not yet an id of the list. *)
Theorem add_ids_follow_the_clock (a c1 b c2 : Z) (ra rb : Reminder)
    (prev : list Reminder) :
  map id (RemindersHook.addReminder b c2 rb (RemindersHook.addReminder a c1 ra prev))
  = map id prev ++ [RemindersHook.toString a; RemindersHook.toString b]
  /\ (RemindersHook.toString a = RemindersHook.toString b <-> a = b)
  /\ (List.NoDup (map id prev) ->
      (List.NoDup (map id (RemindersHook.addReminder a c1 ra prev))
       <-> ~ In (RemindersHook.toString a) (map id prev))).
Proof.
  split; [| split].
  - unfold RemindersHook.addReminder. rewrite !map_app, <- app_assoc. done.
  - split; [apply toString_inj | by intros ->].
  - intros Hnd. unfold RemindersHook.addReminder. rewrite map_app. simpl.
    rewrite NoDup_snoc. tauto.
Qed.

(** X12.  [handleSave] keeps the ids of the list distinct as long as the
    text of the clock is not one of them: a reminder whose id the list
    holds replaces the one of that id, and any other reminder is appended
    under the clock's id, not under the id it came with. *)
Theorem save_keeps_ids_distinct (now1 now2 : Z) (reminder : Reminder)
    (reminders : list Reminder) :
  List.NoDup (map id reminders) ->
  ~ In (RemindersHook.toString now1) (map id reminders) ->
  List.NoDup (map id (RemindersHook.handleSave now1 now2 reminder reminders))
  /\ (In (id reminder) (map id reminders) ->
      map id (RemindersHook.handleSave now1 now2 reminder reminders) = map id reminders
      /\ In reminder (RemindersHook.handleSave now1 now2 reminder reminders))
  /\ (~ In (id reminder) (map id reminders) ->
      map id (RemindersHook.handleSave now1 now2 reminder reminders)
      = map id reminders ++ [RemindersHook.toString now1]).
Proof.
  intros Hnd Hfresh.
  assert (Hknown : existsb (fun r => String.eqb (id r) (id reminder)) reminders = true
                   <-> In (id reminder) (map id reminders)).
  { rewrite existsb_exists, in_map_iff. split.
    - intros (r & Hin & Heq). apply String.eqb_eq in Heq. eauto.
    - intros (r & Heq & Hin). exists r. split; [done |]. by apply String.eqb_eq. }
  assert (Hupd : map id (RemindersHook.updateReminder reminder reminders) = map id reminders).
  { unfold RemindersHook.updateReminder. rewrite map_map. apply map_ext. intros r.
    by destruct (String.eqb_spec (id r) (id reminder)). }
  unfold RemindersHook.handleSave.
  destruct (existsb _ reminders) eqn:Hex.
  - split; [by rewrite Hupd |]. split.
    + intros Hin. split; [done |].
      apply in_map_iff in Hin as (r & Hid & Hin).
      apply in_map_iff. exists r. split; [| done].
      by destruct (String.eqb_spec (id r) (id reminder)).
    + intros Hnotin. exfalso. by apply Hnotin, Hknown.
  - assert (Hadd : map id (RemindersHook.addReminder now1 now2 reminder reminders)
                   = map id reminders ++ [RemindersHook.toString now1]).
    { unfold RemindersHook.addReminder. by rewrite map_app. }
    split; [| split; [| done]].
    + rewrite Hadd. by apply NoDup_snoc.
    + intros Hin. apply Hknown in Hin. congruence.
Qed.

(** Saving a new reminder into the list of the 10-minute reminder. *)
Lemma save_keeps_ids_distinct_witness :
  List.NoDup (map id (RemindersHook.handleSave 1793536200000 1793536200000
                        (originReminder OnEnter) [tenMinutes]))
  /\ (In (id (originReminder OnEnter)) (map id [tenMinutes]) ->
      map id (RemindersHook.handleSave 1793536200000 1793536200000
                (originReminder OnEnter) [tenMinutes]) = map id [tenMinutes]
      /\ In (originReminder OnEnter)
            (RemindersHook.handleSave 1793536200000 1793536200000
               (originReminder OnEnter) [tenMinutes]))
  /\ (~ In (id (originReminder OnEnter)) (map id [tenMinutes]) ->
      map id (RemindersHook.handleSave 1793536200000 1793536200000
                (originReminder OnEnter) [tenMinutes])
      = map id [tenMinutes] ++ [RemindersHook.toString 1793536200000]).
Proof.
  apply (save_keeps_ids_distinct 1793536200000 1793536200000
           (originReminder OnEnter) [tenMinutes]).
  - simpl. apply List.NoDup_cons; [simpl; tauto | apply List.NoDup_nil].
  - simpl. intros [H | []]. discriminate.
Defined.

(* ===================================================================== *)
(** ** Further properties of the geofence tracker *)
(* ===================================================================== *)

Section Watch.

Import LocationService.

Lemma stopWatchingLocation_stopped t :
  tracked t ->
  watchId (stopWatchingLocation t) = None /\ watches (stopWatchingLocation t) = ∅.
Proof.
  unfold tracked, stopWatchingLocation.
  destruct (watchId t) as [w|] eqn:Hw; simpl; [| by rewrite Hw].
  intros [rs ->]. split; [done |]. apply delete_singleton_eq.
Qed.

Lemma tracked_stopWatchingLocation t : tracked t -> tracked (stopWatchingLocation t).
Proof.
  intros Ht. destruct (stopWatchingLocation_stopped t Ht) as [Hid Hw].
  unfold tracked. by rewrite Hid.
Qed.

Lemma startWatchingLocation_single rs t :
  tracked t ->
  watches (startWatchingLocation rs t) = {[nextWatchId t := rs]}.
Proof.
  intros Ht. pose proof (stopWatchingLocation_stopped t Ht) as [_ Hstop].
  unfold startWatchingLocation. simpl.
  destruct (watchId t) eqn:Hw.
  - rewrite stopWatchingLocation_nextWatchId, Hstop. apply insert_empty.
  - unfold tracked in Ht. rewrite Hw in Ht. rewrite Ht. apply insert_empty.
Qed.

Lemma tracked_startWatchingLocation rs t : tracked t -> tracked (startWatchingLocation rs t).
Proof.
  intros Ht. pose proof (startWatchingLocation_single rs t Ht) as Hsingle.
  destruct (startWatchingLocation_watch rs t) as (_ & Hid & _).
  unfold tracked. rewrite Hid. eauto.
Qed.

Lemma tracked_step t e : tracked t -> tracked (snd (step t e)).
Proof.
  intros Ht. destruct e as [rs | | k pos | k err | w pos | w err]; simpl.
  - by apply tracked_startWatchingLocation.
  - by apply tracked_stopWatchingLocation.
  - by destruct (positionRequests t !! k).
  - by destruct (positionRequests t !! k).
  - destruct (watches t !! w); [| done].
    by destruct (checkReminders pos l (locationStates t)).
  - destruct (watches t !! w); [| done]. simpl. by apply tracked_stopWatchingLocation.
Qed.

Lemma tracked_run es : forall t, tracked t -> tracked (snd (run es t)).
Proof.
  induction es as [| e es IH]; intros t Ht; [done |].
  simpl. pose proof (tracked_step t e Ht) as Hstep.
  destruct (step t e) as [out t1]. simpl in Hstep.
  specialize (IH t1 Hstep). by destruct (run es t1).
Qed.

Lemma tracked_initialTracker : tracked initialTracker.
Proof. reflexivity. Qed.

Lemma tracked_reached es : tracked (snd (run es initialTracker)).
Proof. apply tracked_run, tracked_initialTracker. Qed.

Lemma checkReminders_states pos rs :
  forall fired states,
    snd (fold_left (checkReminder pos) rs (fired, states)) = initStates pos rs states.
Proof.
  unfold initStates.
  induction rs as [| r rs IH]; intros fired states; [done |].
  cbn [fold_left]. rewrite checkReminder_fires. rewrite IH.
  by destruct (location r).
Qed.

Lemma checkReminders_fired pos rs :
  forall fired states r,
    In r (fst (fold_left (checkReminder pos) rs (fired, states))) ->
    In r fired \/ (In r rs /\ location r <> None).
Proof.
  induction rs as [| r0 rs IH]; intros fired states r Hin; [by left |].
  cbn [fold_left] in Hin. rewrite checkReminder_fires in Hin.
  apply IH in Hin as [Hin | [Hin Hloc]].
  - apply in_app_iff in Hin as [Hin | Hin]; [by left |].
    right. unfold transitionFires in Hin.
    destruct (location r0) eqn:Hl0; [| done].
    destruct (match states !! id r0 with Some _ => _ | None => _ end); [| done].
    destruct Hin as [<- | []]. split; [by left | congruence].
  - right. split; [by right | done].
Qed.

End Watch.

(** X13.  In every state the tracker reaches from its initial one, by
    any calls of start and stop and any position callbacks, the host
    holds at most one watch of this module, and it is the one [watchId]
    names. *)
Theorem at_most_one_watch (es : list LocationService.Event) :
  tracked (snd (LocationService.run es LocationService.initialTracker)).
Proof. apply tracked_reached. Qed.

(** X15.  A change of the reminder list, in every state the tracker
    reaches: with no location-based reminder the watch is stopped and
    the stored states stay; with at least one, whatever the change was,
    the watch is replaced by a new one on the location-based reminders, a
    new one-shot read is requested, and every stored state is
    forgotten. *)
Theorem list_change_restarts_watch (tz : TimeZone) (clock : nat -> Z * Z)
    (reminders : list Reminder) (w : World) (es : list LocationService.Event) :
  let t := snd (LocationService.run es LocationService.initialTracker) in
  let t' := snd (RemindersHook.remindersChanged tz clock reminders w t) in
  match List.filter RemindersHook.isLocation reminders with
  | [] =>
      LocationService.watchId t' = None
      /\ LocationService.watches t' = ∅
      /\ LocationService.locationStates t' = LocationService.locationStates t
  | rs =>
      LocationService.watchId t' = Some (LocationService.nextWatchId t)
      /\ LocationService.watches t' = {[LocationService.nextWatchId t := rs]}
      /\ LocationService.locationStates t' = ∅
      /\ LocationService.positionRequests t'
         = LocationService.positionRequests t ++ [rs]
  end.
Proof.
  intros t t'.
  assert (Ht : tracked t) by apply tracked_reached.
  pose proof (tracked_stopWatchingLocation t Ht) as Hstopped.
  destruct (stopWatchingLocation_stopped t Ht) as [Hid Hw].
  unfold t', RemindersHook.remindersChanged, RemindersHook.remindersEffect. simpl.
  destruct (List.filter RemindersHook.isLocation reminders) as [| r rs] eqn:Hf.
  - destruct (stopWatchingLocation_stopped _ Hstopped) as [Hid' Hw'].
    split; [done |]. split; [done |].
    unfold LocationService.stopWatchingLocation at 1. rewrite Hid.
    unfold LocationService.stopWatchingLocation.
    by destruct (LocationService.watchId t).
  - destruct (startWatchingLocation_watch (r :: rs)
                (LocationService.stopWatchingLocation t)) as (Hs & Hi & _ & Hreq).
    rewrite stopWatchingLocation_nextWatchId in Hi.
    split; [done |]. split.
    + rewrite (startWatchingLocation_single (r :: rs) _ Hstopped).
      by rewrite stopWatchingLocation_nextWatchId.
    + split; [done |]. rewrite Hreq. f_equal.
      unfold LocationService.stopWatchingLocation.
      by destruct (LocationService.watchId t).
Qed.

(** X18.  A position sample, on any list of reminders: it stores exactly
    the states the answer to a one-shot read at that position stores; an
    id that no reminder with a location carries keeps its stored state;
    and only reminders of the list that have a location are fired. *)
Theorem sample_touches_located_reminders_only (pos : LocationService.Position)
    (rs : list Reminder) (states : gmap string bool) :
  snd (LocationService.checkReminders pos rs states)
  = LocationService.initStates pos rs states
  /\ (forall i,
        (forall r, In r rs -> location r <> None -> id r <> i) ->
        snd (LocationService.checkReminders pos rs states) !! i = states !! i)
  /\ (forall r,
        In r (fst (LocationService.checkReminders pos rs states)) ->
        In r rs /\ location r <> None).
Proof.
  unfold LocationService.checkReminders.
  split; [apply checkReminders_states |]. split.
  - intros i Hi. rewrite checkReminders_states. clear -Hi.
    unfold LocationService.initStates. revert states.
    induction rs as [| r rs IH]; intros states; [done |].
    simpl. rewrite IH by (intros r' Hin; apply Hi; by right).
    destruct (location r) eqn:Hloc; [| done].
    rewrite lookup_insert_ne; [done |]. apply Hi; [by left | congruence].
  - intros r Hin. by apply checkReminders_fired in Hin as [[] | H].
Qed.

(** X20.  Neither [startWatchingLocation] nor [stopWatchingLocation]
    withdraws a one-shot read that is pending: it stays pending, and its
    answer, when it comes after a restart, is written into the states the
    restart has cleared, for the reminders (of distinct ids) of the start
    that requested it. *)
Theorem pending_read_outlives_restart (t : LocationService.Tracker)
    (k : nat) (rs0 rs : list Reminder) :
  LocationService.positionRequests t !! k = Some rs0 ->
  List.NoDup (map id rs0) ->
  LocationService.positionRequests (LocationService.stopWatchingLocation t) !! k
  = Some rs0
  /\ LocationService.positionRequests (LocationService.startWatchingLocation rs t) !! k
     = Some rs0
  /\ forall pos r loc,
       In r rs0 -> location r = Some loc ->
       LocationService.locationStates
         (snd (LocationService.step (LocationService.startWatchingLocation rs t)
                 (LocationService.CurrentPosition k pos))) !! id r
       = Some (LocationService.isInside pos loc).
Proof.
  intros Hk Hnd.
  assert (Hstop : LocationService.positionRequests
                    (LocationService.stopWatchingLocation t)
                  = LocationService.positionRequests t).
  { unfold LocationService.stopWatchingLocation.
    by destruct (LocationService.watchId t). }
  assert (Hstart : LocationService.positionRequests
                     (LocationService.startWatchingLocation rs t) !! k = Some rs0).
  { destruct (startWatchingLocation_watch rs t) as (_ & _ & _ & ->).
    by apply lookup_app_l_Some. }
  split; [by rewrite Hstop |]. split; [done |].
  intros pos r loc Hin Hloc. unfold LocationService.step. rewrite Hstart.
  cbn [snd LocationService.withStates LocationService.locationStates].
  by apply initStates_lookup.
Qed.

(** A read requested for the reminder around (0, 0), then a restart on
    no reminder. *)
Lemma pending_read_outlives_restart_witness :
  LocationService.positionRequests
    (LocationService.stopWatchingLocation
       (LocationService.startWatchingLocation [originReminder OnEnter]
          LocationService.initialTracker)) !! 0%nat
  = Some [originReminder OnEnter]
  /\ LocationService.positionRequests
       (LocationService.startWatchingLocation []
          (LocationService.startWatchingLocation [originReminder OnEnter]
             LocationService.initialTracker)) !! 0%nat
     = Some [originReminder OnEnter]
  /\ forall pos r loc,
       In r [originReminder OnEnter] -> location r = Some loc ->
       LocationService.locationStates
         (snd (LocationService.step
                 (LocationService.startWatchingLocation []
                    (LocationService.startWatchingLocation [originReminder OnEnter]
                       LocationService.initialTracker))
                 (LocationService.CurrentPosition 0 pos))) !! id r
       = Some (LocationService.isInside pos loc).
Proof.
  apply (pending_read_outlives_restart
           (LocationService.startWatchingLocation [originReminder OnEnter]
              LocationService.initialTracker)
           0 [originReminder OnEnter] []).
  - reflexivity.
  - simpl. apply List.NoDup_cons; [simpl; tauto | apply List.NoDup_nil].
Defined.

(** X21.  A one-time reminder in Interval mode, whose [interval * unitMs]
    is a safe integer (at most 2^53 - 1), is forgotten by the scheduler
    when its timeout fires, but stays in the list: the effect of the next
    change of the list (reminders of distinct ids) arms it again, with
    the full delay. *)
Theorem fired_one_time_reminder_is_rearmed (tz : TimeZone) (es : list Event)
    (clock : nat -> Z * Z) (now targetNow h : Z) (t : Timeout) (n : Z)
    (u : IntervalUnit) (reminders : list Reminder)
    (tr : LocationService.Tracker) :
  timeouts (run tz es initialWorld) !! h = Some t ->
  triggerType (callbackReminder t) = Time ->
  triggerTimeType (callbackReminder t) = Some Interval ->
  isRecurring (callbackReminder t) = Some false ->
  interval (callbackReminder t) = Some (Num n) -> 0 < n ->
  intervalUnit (callbackReminder t) = Some u ->
  n * unitMs u <= MAX_SAFE_INTEGER ->
  List.NoDup (map id reminders) ->
  In (callbackReminder t) reminders ->
  let w1 := snd (fireTimeout tz now targetNow h (run tz es initialWorld)) in
  fst (fireTimeout tz now targetNow h (run tz es initialWorld)) = [callbackReminder t]
  /\ liveTimers (id (callbackReminder t)) w1 = ∅
  /\ exists h',
       liveTimers (id (callbackReminder t))
         (fst (RemindersHook.remindersEffect tz clock reminders w1 tr))
       = {[h' := {| callbackReminder := callbackReminder t;
                    delay := Num (n * unitMs u) |}]}.
Proof.
  intros Hh Ht Hm Hrec Hi Hn Hu Hsafe Hnd Hin w1.
  assert (Hw : consistent (run tz es initialWorld))
    by apply consistent_run, consistent_initialWorld.
  assert (Hfire : fireTimeout tz now targetNow h (run tz es initialWorld)
                  = ([callbackReminder t],
                     cancelNotification (id (callbackReminder t))
                       (run tz es initialWorld))).
  { rewrite (fireTimeout_law tz now targetNow h _ Hw), Hh, Hrec. done. }
  unfold w1. rewrite Hfire. simpl.
  assert (Hw1 : consistent (cancelNotification (id (callbackReminder t))
                              (run tz es initialWorld)))
    by by apply consistent_cancelNotification.
  split; [done |]. split.
  - apply liveTimers_unrecorded; [done | apply cancelNotification_lookup_eq].
  - destruct (scheduleAll_interval tz clock
                (List.filter RemindersHook.isTime reminders) 0%nat
                (cancelNotification (id (callbackReminder t)) (run tz es initialWorld))
                (callbackReminder t) n u) as (h' & _ & Hlive); try done.
    + by apply NoDup_map_filter.
    + apply filter_In. split; [done |]. by apply isTime_true.
    + exists h'. exact Hlive.
Qed.

(** The one-time reminder in 10 minutes, scheduled, fired, and a change
    of the list that still holds it. *)
Lemma fired_one_time_reminder_is_rearmed_witness :
  fst (fireTimeout (fixedZone 0) 1793536800000 1793536800000 1
         (run (fixedZone 0) [Schedule 1793536200000 1793536200000 inTenMinutes]
            initialWorld))
  = [callbackReminder {| callbackReminder := inTenMinutes; delay := Num 600000 |}]
  /\ liveTimers (id (callbackReminder
                       {| callbackReminder := inTenMinutes; delay := Num 600000 |}))
       (snd (fireTimeout (fixedZone 0) 1793536800000 1793536800000 1
               (run (fixedZone 0) [Schedule 1793536200000 1793536200000 inTenMinutes]
                  initialWorld))) = ∅
  /\ exists h',
       liveTimers (id (callbackReminder
                         {| callbackReminder := inTenMinutes; delay := Num 600000 |}))
         (fst (RemindersHook.remindersEffect (fixedZone 0)
                 (fun _ => (1793536900000, 1793536900000))
                 [inTenMinutes; tenMinutes]
                 (snd (fireTimeout (fixedZone 0) 1793536800000 1793536800000 1
                         (run (fixedZone 0)
                            [Schedule 1793536200000 1793536200000 inTenMinutes]
                            initialWorld)))
                 LocationService.initialTracker))
       = {[h' := {| callbackReminder :=
                      callbackReminder
                        {| callbackReminder := inTenMinutes; delay := Num 600000 |};
                    delay := Num (10 * unitMs Minutes) |}]}.
Proof.
  apply (fired_one_time_reminder_is_rearmed (fixedZone 0)
           [Schedule 1793536200000 1793536200000 inTenMinutes]
           (fun _ => (1793536900000, 1793536900000))
           1793536800000 1793536800000 1
           {| callbackReminder := inTenMinutes; delay := Num 600000 |}
           10 Minutes [inTenMinutes; tenMinutes] LocationService.initialTracker);
    [reflexivity | reflexivity | reflexivity | reflexivity | reflexivity | lia
    | reflexivity | vm_compute; discriminate | |].
  - simpl. apply List.NoDup_cons; [simpl; intros [H | []]; discriminate |].
    apply List.NoDup_cons; [simpl; tauto | apply List.NoDup_nil].
  - left. reflexivity.
Defined.

(* ===================================================================== *)
(** ** The Gemini service *)
(* ===================================================================== *)

(** X19.  [parseReminderFromText] rejects with one of two messages only:
    the one about the API key, exactly when the key is empty, and
    otherwise the general one; the messages of its own validation (missing
    details, missing location) never reach the caller.  With a key, it
    succeeds exactly when the request gave an object with a non-empty
    text and a trigger type that, for a location trigger, also has a
    location; the result carries that text and trigger type. *)
Theorem gemini_errors_are_generic (apiKey : string)
    (response : option GeminiService.ParsedData) :
  (forall message,
     GeminiService.parseReminderFromText apiKey response = inl message ->
     (message = GeminiService.keyMessage /\ apiKey = EmptyString)
     \/ (message = GeminiService.understandMessage /\ apiKey <> EmptyString))
  /\ (forall result,
        GeminiService.parseReminderFromText apiKey response = inr result
        <-> apiKey <> EmptyString
            /\ exists d, response = Some d
                 /\ GeminiService.buildResult d = inr result)
  /\ (forall d result,
        GeminiService.buildResult d = inr result ->
        GeminiService.parsedText d = Some (GeminiService.resultText result)
        /\ GeminiService.resultText result <> EmptyString
        /\ GeminiService.parsedTriggerType d
           = Some (GeminiService.resultTriggerType result)
        /\ (GeminiService.resultTriggerType result = Location ->
            GeminiService.parsedLocation d <> None))
  /\ (forall d,
        (exists message, GeminiService.buildResult d = inl message)
        <-> JS.truthy_string (GeminiService.parsedText d) = false
            \/ GeminiService.parsedTriggerType d = None
            \/ (GeminiService.parsedTriggerType d = Some Location
                /\ GeminiService.parsedLocation d = None)).
Proof.
  split; [| split; [| split]].
  - intros message. unfold GeminiService.parseReminderFromText.
    destruct apiKey as [| c key].
    + intros H. injection H as <-. by left.
    + destruct response as [d|]; [destruct (GeminiService.buildResult d) |];
        intros H; try discriminate; injection H as <-; by right.
  - intros result. unfold GeminiService.parseReminderFromText.
    destruct apiKey as [| c key].
    + split; [discriminate | by intros [H _]].
    + destruct response as [d|].
      * destruct (GeminiService.buildResult d) as [m | res] eqn:Hb.
        -- split; [discriminate |].
           intros (_ & d' & Hd & Hres). injection Hd as <-. congruence.
        -- split.
           ++ intros H. injection H as <-. split; [done |]. eauto.
           ++ intros (_ & d' & Hd & Hres). injection Hd as <-. congruence.
      * split; [discriminate |]. by intros (_ & d' & Hd & _).
  - intros d result. unfold GeminiService.buildResult.
    destruct (GeminiService.parsedText d) as [[| c txt] |]; simpl; try discriminate.
    destruct (GeminiService.parsedTriggerType d) as [[|] |]; try discriminate.
    + intros H. injection H as <-. simpl. repeat split; done.
    + destruct (GeminiService.parsedLocation d); [| discriminate].
      intros H. injection H as <-. simpl. repeat split; done.
  - intros d. unfold GeminiService.buildResult.
    destruct (GeminiService.parsedText d) as [[| c txt] |]; simpl;
      try (split; [intros _; by left | intros _; eauto]).
    destruct (GeminiService.parsedTriggerType d) as [[|] |].
    + split; [intros [m H]; discriminate |].
      intros [H | [H | [H _]]]; discriminate.
    + destruct (GeminiService.parsedLocation d).
      * split; [intros [m H]; discriminate |].
        intros [H | [H | [_ H]]]; discriminate.
      * split; [intros _; right; right; done | intros _; eauto].
    + split; [intros _; right; by left | intros _; eauto].
Qed.
